(** * Self-hosted Sentry MCP server: dispatch, validation and error translation

    A shallow embedding of [src/index.ts]: the issue-reference normalizer
    [getIssueId], the per-tool argument validators, the base-URL
    normalization done at start-up and the [CallToolRequest] handler, with
    the theorems that settle the specification's claims about them.

    JavaScript strings are modelled as [string] (a sequence of bytes, ASCII
    characters being single bytes), numbers as [Z] (only integers occur:
    indices, lengths and HTTP status codes), JSON data as the inductive
    [json], and [undefined] as [None]. *)

From Stdlib Require Import ZArith String Ascii List Bool Lia DecimalString.
From stdpp Require Import base option list strings gmap.

Open Scope string_scope.
Open Scope Z_scope.

(** ** Characters and strings *)

Module Chars.

Definition code (c : ascii) : nat := nat_of_ascii c.

Definition between (lo hi : nat) (c : ascii) : bool :=
  Nat.leb lo (code c) && Nat.leb (code c) hi.

Definition is_ascii_digit : ascii -> bool := between 48 57.
Definition is_ascii_upper : ascii -> bool := between 65 90.
Definition is_ascii_lower : ascii -> bool := between 97 122.
Definition is_ascii_alpha (c : ascii) : bool := is_ascii_upper c || is_ascii_lower c.
Definition is_ascii_alnum (c : ascii) : bool := is_ascii_alpha c || is_ascii_digit c.

(** "C0 control or space" of the URL standard: code points up to U+0020. *)
Definition is_c0_or_space (c : ascii) : bool := Nat.leb (code c) 32.

(** "ASCII tab or newline": U+0009, U+000A, U+000D. *)
Definition is_tab_or_newline (c : ascii) : bool :=
  Nat.eqb (code c) 9 || Nat.eqb (code c) 10 || Nat.eqb (code c) 13.

Definition quote : ascii := ascii_of_nat 34.
Definition backslash : ascii := ascii_of_nat 92.
Definition newline : ascii := ascii_of_nat 10.

Definition to_lower (c : ascii) : ascii :=
  if is_ascii_upper c then ascii_of_nat (code c + 32) else c.

Definition hex_digit (upper : bool) (n : nat) : ascii :=
  if Nat.ltb n 10 then ascii_of_nat (48 + n)
  else ascii_of_nat ((if upper then 55 else 87) + n).

End Chars.

Import Chars.

Module Str.

Fixpoint all (f : ascii -> bool) (s : string) : bool :=
  match s with
  | EmptyString => true
  | String c r => f c && all f r
  end.

Fixpoint drop_while (f : ascii -> bool) (s : string) : string :=
  match s with
  | EmptyString => EmptyString
  | String c r => if f c then drop_while f r else s
  end.

Fixpoint take_while (f : ascii -> bool) (s : string) : string :=
  match s with
  | EmptyString => EmptyString
  | String c r => if f c then String c (take_while f r) else EmptyString
  end.

Fixpoint remove (f : ascii -> bool) (s : string) : string :=
  match s with
  | EmptyString => EmptyString
  | String c r => if f c then remove f r else String c (remove f r)
  end.

(** Drops the longest suffix all of whose characters satisfy [f]. *)
Fixpoint drop_trailing (f : ascii -> bool) (s : string) : string :=
  match s with
  | EmptyString => EmptyString
  | String c r =>
      match drop_trailing f r with
      | EmptyString => if f c then EmptyString else String c EmptyString
      | r' => String c r'
      end
  end.

Fixpoint map (f : ascii -> ascii) (s : string) : string :=
  match s with
  | EmptyString => EmptyString
  | String c r => String (f c) (map f r)
  end.

Fixpoint flat_map (f : ascii -> string) (s : string) : string :=
  match s with
  | EmptyString => EmptyString
  | String c r => f c ++ flat_map f r
  end.

(** [String.prototype.split] with a separator test: the pieces between
    separators, in order; a string without separator is one piece, the
    empty string is one empty piece. *)
Fixpoint split_on (sep : ascii -> bool) (s : string) : list string :=
  match s with
  | EmptyString => [EmptyString]
  | String c r =>
      if sep c then EmptyString :: split_on sep r
      else match split_on sep r with
           | piece :: pieces => String c piece :: pieces
           | [] => [String c EmptyString]
           end
  end.

(** [Array.prototype.join]. *)
Fixpoint join (sep : string) (l : list string) : string :=
  match l with
  | [] => EmptyString
  | [x] => x
  | x :: r => x ++ sep ++ join sep r
  end.

(** [s.endsWith(suffix)]. *)
Fixpoint endsWith (s suffix : string) : bool :=
  String.eqb s suffix ||
  match s with
  | EmptyString => false
  | String _ r => endsWith r suffix
  end.

(** [s.slice(0, -1)]: all but the last character. *)
Fixpoint slice_0_m1 (s : string) : string :=
  match s with
  | EmptyString => EmptyString
  | String _ EmptyString => EmptyString
  | String c r => String c (slice_0_m1 r)
  end.

(** [hay.includes(needle)], as a proposition. *)
Definition includes (hay needle : string) : Prop :=
  exists pre post, hay = pre ++ needle ++ post.

End Str.

(** ** The two JavaScript primitives of the normalizer *)

(** [/^\d+$/.test(s)]: one or more ASCII digits and nothing else.  Without
    the [m] flag [$] only matches at the very end of the input. *)
Definition test_digits (s : string) : bool :=
  match s with
  | EmptyString => false
  | String _ _ => Str.all is_ascii_digit s
  end.

(** [s.split('/')]. *)
Definition split (s : string) : list string :=
  Str.split_on (Ascii.eqb "/") s.

(** [parts.indexOf(x)]: index of the first element strictly equal to [x],
    or [-1]. *)
Fixpoint indexOf_from (i : Z) (parts : list string) (x : string) : Z :=
  match parts with
  | [] => -1
  | y :: rest => if String.eqb y x then i else indexOf_from (i + 1) rest x
  end.

Definition indexOf (parts : list string) (x : string) : Z :=
  indexOf_from 0 parts x.

(** ** The platform's URL parser

    [new URL(input)] is the platform's WHATWG URL parser, not code of this
    repository.  The development depends on it through this interface:
    [URL_pathname input] is [Some (new URL(input).pathname)], or [None] when
    the constructor throws.  The one fact of the URL standard that the proofs
    use is that, without a base URL, parsing fails unless the input (leading
    C0 controls and spaces stripped) starts with the ASCII letter of a
    scheme. *)

Definition scheme_start (input : string) : bool :=
  match Str.drop_while is_c0_or_space input with
  | EmptyString => false
  | String c _ => is_ascii_alpha c
  end.

Class URLPlatform := {
  URL_pathname : string -> option string;
  URL_needs_scheme :
    forall input p, URL_pathname input = Some p -> scheme_start input = true
}.

(** ** Issue-reference normalizer ([getIssueId], index.ts 62-75) *)

Section Normalizer.
Context `{URLPlatform}.

Definition getIssueId (input : string) : option string :=
  match URL_pathname input with
  | Some pathname =>
      (* try block, [new URL(input)] succeeded *)
      let pathParts := split pathname in
      let issuesIndex := indexOf pathParts "issues" in
      if negb (issuesIndex =? -1) && (Z.of_nat (length pathParts) >? issuesIndex + 1)
      then
        match pathParts !! Z.to_nat (issuesIndex + 1) with
        | Some potentialId =>
            if test_digits potentialId then Some potentialId else None
        | None => None
        end
      else None
  | None =>
      (* catch block *)
      if test_digits input then Some input else None
  end.

End Normalizer.

(** ** A reference instance of the URL platform

    An executable model of the WHATWG basic URL parser (no base URL), used to
    run the normalizer on concrete inputs.  It covers ASCII inputs of the
    forms [scheme://[user[:pw]@]host[:port][/path][?query][#fragment]],
    [scheme:/path] and [scheme:opaque], where the host is a plain domain name
    (letters, digits, [-], [_], [.]; no IDNA label, last label starting with
    a letter).  [file:] URLs, IPv4/IPv6 hosts, percent-encoded or non-ASCII
    hosts are outside the model, which answers [None] there; the theorems on
    [getIssueId] are stated for every [URLPlatform] and do not depend on
    it. *)

Module Whatwg.

Definition is_scheme_char (c : ascii) : bool :=
  is_ascii_alnum c || Ascii.eqb c "+" || Ascii.eqb c "-" || Ascii.eqb c ".".

(** Leading and trailing C0 controls and spaces are stripped, then every
    ASCII tab or newline is removed. *)
Definition preprocess (input : string) : string :=
  Str.remove is_tab_or_newline
    (Str.drop_trailing is_c0_or_space (Str.drop_while is_c0_or_space input)).

(** Scheme start state and scheme state: the lower-cased scheme and what
    follows its colon. *)
Definition parse_scheme (s : string) : option (string * string) :=
  match s with
  | String c r =>
      if is_ascii_alpha c then
        match Str.drop_while is_scheme_char r with
        | String ":" rest =>
            Some (Str.map to_lower (String c (Str.take_while is_scheme_char r)), rest)
        | _ => None
        end
      else None
  | EmptyString => None
  end.

Definition is_special (scheme : string) : bool :=
  existsb (String.eqb scheme) ["http"; "https"; "ws"; "wss"; "ftp"].

Definition is_slash (special : bool) (c : ascii) : bool :=
  Ascii.eqb c "/" || (special && Ascii.eqb c backslash).

Definition ends_authority (special : bool) (c : ascii) : bool :=
  is_slash special c || Ascii.eqb c "?" || Ascii.eqb c "#".

Definition ends_path (c : ascii) : bool := Ascii.eqb c "?" || Ascii.eqb c "#".

(** Path percent-encode set of the current standard, on bytes: C0
    controls, space, the quote, [#], [<], [>], [?], [^], the backquote, the
    braces, and everything above U+007E. *)
Definition in_path_encode_set (c : ascii) : bool :=
  Nat.leb (code c) 32 || Nat.ltb 126 (code c) ||
  existsb (Nat.eqb (code c)) [34; 35; 60; 62; 63; 94; 96; 123; 125]%nat.

Definition in_c0_encode_set (c : ascii) : bool :=
  Nat.ltb (code c) 32 || Nat.ltb 126 (code c).

Definition percent_encode (inset : ascii -> bool) (c : ascii) : string :=
  if inset c
  then String "%" (String (hex_digit true (code c / 16))
                  (String (hex_digit true (code c mod 16)) EmptyString))
  else String c EmptyString.

Definition is_single_dot (seg : string) : bool :=
  existsb (String.eqb (Str.map to_lower seg)) ["."; "%2e"].

Definition is_double_dot (seg : string) : bool :=
  existsb (String.eqb (Str.map to_lower seg)) [".."; ".%2e"; "%2e."; "%2e%2e"].

(** Path state: [path] is the list of segments so far, [raw] the remaining
    raw segments; the last raw segment is the one ended by the end of the
    path rather than by a slash. *)
Fixpoint path_state (path : list string) (raw : list string) : list string :=
  match raw with
  | [] => path
  | seg :: rest =>
      let last := match rest with [] => true | _ => false end in
      let path' :=
        if is_double_dot seg then
          let shortened := removelast path in
          if last then (shortened ++ [EmptyString])%list else shortened
        else if is_single_dot seg then
          if last then (path ++ [EmptyString])%list else path
        else (path ++ [Str.flat_map (percent_encode in_path_encode_set) seg])%list
      in path_state path' rest
  end.

(** The [pathname] getter for a list path: every segment preceded by a
    slash. *)
Definition serialize_path (path : list string) : string :=
  String.concat EmptyString (List.map (String "/") path).

Definition is_plain_host_char (c : ascii) : bool :=
  is_ascii_alnum c || Ascii.eqb c "-" || Ascii.eqb c "_" || Ascii.eqb c ".".

Definition is_idna_label (label : string) : bool :=
  String.eqb (Str.map to_lower (String.substring 0 4 label)) "xn--".

Definition plain_domain (host : string) : bool :=
  Str.all is_plain_host_char host &&
  negb (existsb is_idna_label (Str.split_on (Ascii.eqb ".") host)) &&
  match rev (Str.split_on (Ascii.eqb ".") (Str.drop_trailing (Ascii.eqb ".") host)) with
  | String c _ :: _ => is_ascii_alpha c
  | _ => false
  end.

Fixpoint decimal (acc : N) (s : string) : N :=
  match s with
  | EmptyString => acc
  | String c r => decimal (10 * acc + N.of_nat (code c - 48)) r
  end.

Definition valid_port (port : string) : bool :=
  Str.all is_ascii_digit port && (decimal 0 port <=? 65535)%N.

(** What follows the last [@] of the authority, or all of it. *)
Definition after_credentials (authority : string) : option string :=
  match rev (Str.split_on (Ascii.eqb "@") authority) with
  | [hostport] => Some hostport
  | hostport :: _ => if String.eqb hostport EmptyString then None else Some hostport
  | [] => None
  end.

(** Authority, host and port states. *)
Definition authority_ok (special : bool) (authority : string) : bool :=
  match after_credentials authority with
  | None => false
  | Some hostport =>
      let host := Str.take_while (fun c => negb (Ascii.eqb c ":")) hostport in
      match Str.drop_while (fun c => negb (Ascii.eqb c ":")) hostport with
      | EmptyString =>
          if String.eqb host EmptyString then negb special else plain_domain host
      | String _ port =>
          negb (String.eqb host EmptyString) && plain_domain host && valid_port port
      end
  end.

(** Path start state and path state on what follows the authority. *)
Definition hierarchical_path (special : bool) (rest : string) : string :=
  match rest with
  | EmptyString => if special then "/" else EmptyString
  | String c r =>
      let body := if is_slash special c then r else rest in
      if negb special && ends_path c then EmptyString
      else serialize_path
             (path_state [] (Str.split_on (is_slash special)
                               (Str.take_while (fun c => negb (ends_path c)) body)))
  end.

Definition pathname (input : string) : option string :=
  match parse_scheme (preprocess input) with
  | None => None
  | Some (scheme, rest) =>
      if String.eqb scheme "file" then None
      else if is_special scheme then
        let rest := Str.drop_while (is_slash true) rest in
        let authority := Str.take_while (fun c => negb (ends_authority true c)) rest in
        if authority_ok true authority
        then Some (hierarchical_path true
                     (Str.drop_while (fun c => negb (ends_authority true c)) rest))
        else None
      else
        match rest with
        | String "/" (String "/" rest) =>
            let authority := Str.take_while (fun c => negb (ends_authority false c)) rest in
            if authority_ok false authority
            then Some (hierarchical_path false
                         (Str.drop_while (fun c => negb (ends_authority false c)) rest))
            else None
        | String "/" _ => Some (hierarchical_path false rest)
        | _ =>
            Some (Str.flat_map (percent_encode in_c0_encode_set)
                    (Str.take_while (fun c => negb (ends_path c)) rest))
        end
  end.

End Whatwg.

(** ** JSON data and [JSON.stringify] *)

(** A JSON value: what [request.params.arguments] and an upstream response
    body hold.  Objects keep their keys in insertion order.  Only integer
    numbers are modelled. *)
#[warnings="-register-all"]
Inductive json :=
| JNull
| JBool (b : bool)
| JNumber (n : Z)
| JString (s : string)
| JArray (items : list json)
| JObject (fields : list (string * json)).

Module JSON.

(** QuoteJSONString on one character. *)
Definition escape (c : ascii) : string :=
  let n := code c in
  if Nat.eqb n 8 then String backslash "b"
  else if Nat.eqb n 9 then String backslash "t"
  else if Nat.eqb n 10 then String backslash "n"
  else if Nat.eqb n 12 then String backslash "f"
  else if Nat.eqb n 13 then String backslash "r"
  else if Nat.eqb n 34 then String backslash (String quote EmptyString)
  else if Nat.eqb n 92 then String backslash (String backslash EmptyString)
  else if Nat.ltb n 32 then
    String backslash
      ("u00" ++ String (hex_digit false (n / 16))
                  (String (hex_digit false (n mod 16)) EmptyString))
  else String c EmptyString.

Definition quote_string (s : string) : string :=
  String quote (Str.flat_map escape s) ++ String quote EmptyString.

Definition number_to_string (n : Z) : string :=
  NilZero.string_of_int (Z.to_int n).

Definition nl : string := String newline EmptyString.

(** SerializeJSONProperty, SerializeJSONArray and SerializeJSONObject:
    [gap] is the indentation unit, [indent] the current indentation. *)
Fixpoint serialize (gap indent : string) (v : json) {struct v} : string :=
  match v with
  | JNull => "null"
  | JBool true => "true"
  | JBool false => "false"
  | JNumber n => number_to_string n
  | JString s => quote_string s
  | JArray [] => "[]"
  | JArray items =>
      let stepback := indent in
      let indent := indent ++ gap in
      let partial := List.map (serialize gap indent) items in
      if String.eqb gap EmptyString
      then "[" ++ Str.join "," partial ++ "]"
      else "[" ++ nl ++ indent ++ Str.join ("," ++ nl ++ indent) partial
               ++ nl ++ stepback ++ "]"
  | JObject [] => "{}"
  | JObject fields =>
      let stepback := indent in
      let indent := indent ++ gap in
      let partial :=
        List.map (fun kv =>
                    quote_string (fst kv) ++ ":"
                    ++ (if String.eqb gap EmptyString then "" else " ")
                    ++ serialize gap indent (snd kv)) fields in
      if String.eqb gap EmptyString
      then "{" ++ Str.join "," partial ++ "}"
      else "{" ++ nl ++ indent ++ Str.join ("," ++ nl ++ indent) partial
               ++ nl ++ stepback ++ "}"
  end.

Fixpoint spaces (n : nat) : string :=
  match n with
  | O => EmptyString
  | S n => String " " (spaces n)
  end.

(** [JSON.stringify(v, null, space)]; [JSON.stringify(v)] is [stringify v 0]. *)
Definition stringify (v : json) (space : nat) : string :=
  serialize (spaces (Nat.min 10 space)) EmptyString v.

End JSON.

(** ** JavaScript values of the argument bag *)

(** An argument bag or a property read from it: [None] is [undefined]. *)
Abbreviation value := (option json).

Inductive jstype := TyUndefined | TyObject | TyBoolean | TyNumber | TyString.

#[export] Instance jstype_eq_dec : EqDecision jstype.
Proof. solve_decision. Defined.

(** [typeof v]. *)
Definition typeof (v : value) : jstype :=
  match v with
  | None => TyUndefined
  | Some JNull => TyObject
  | Some (JBool _) => TyBoolean
  | Some (JNumber _) => TyNumber
  | Some (JString _) => TyString
  | Some (JArray _) => TyObject
  | Some (JObject _) => TyObject
  end.

Definition is_null (v : value) : bool :=
  match v with Some JNull => true | _ => false end.

Definition is_undefined (v : value) : bool :=
  match v with None => true | _ => false end.

Fixpoint lookup_field (key : string) (fields : list (string * json)) : value :=
  match fields with
  | [] => None
  | (k, v) :: rest => if String.eqb k key then Some v else lookup_field key rest
  end.

(** [args.key] for one of the field names of the tools (none of which is an
    array or prototype property): the field of an object, [undefined] on
    anything else that is not null or undefined. *)
Definition prop (args : value) (key : string) : value :=
  match args with
  | Some (JObject fields) => lookup_field key fields
  | _ => None
  end.

(** ToBoolean, as in [if (v)]. *)
Definition truthy (v : value) : bool :=
  match v with
  | None => false
  | Some JNull => false
  | Some (JBool b) => b
  | Some (JNumber n) => negb (n =? 0)
  | Some (JString s) => negb (String.eqb s EmptyString)
  | Some (JArray _) => true
  | Some (JObject _) => true
  end.

(** A field read as a string, after its validator has established
    [typeof field === 'string']. *)
Definition as_string (v : value) : string :=
  match v with
  | Some (JString s) => s
  | _ => EmptyString
  end.

(** [list.includes(v)] for a list of string literals. *)
Definition includes (list : list string) (v : value) : bool :=
  match v with
  | Some (JString s) => existsb (String.eqb s) list
  | _ => false
  end.

(** ** Argument validators (index.ts 44-60) *)

Definition is_object (args : value) : bool :=
  bool_decide (typeof args = TyObject) && negb (is_null args).

Definition isValidGetIssueArgs (args : value) : bool :=
  is_object args && bool_decide (typeof (prop args "issue_id_or_url") = TyString).

Definition isValidListIssuesArgs (args : value) : bool :=
  is_object args && bool_decide (typeof (prop args "project_slug") = TyString) &&
  (is_undefined (prop args "query") || bool_decide (typeof (prop args "query") = TyString)) &&
  (is_undefined (prop args "status") || bool_decide (typeof (prop args "status") = TyString)).

Definition isValidGetEventArgs (args : value) : bool :=
  is_object args && bool_decide (typeof (prop args "project_slug") = TyString) &&
  bool_decide (typeof (prop args "event_id") = TyString).

Definition isValidUpdateIssueArgs (args : value) : bool :=
  is_object args && bool_decide (typeof (prop args "issue_id") = TyString) &&
  bool_decide (typeof (prop args "status") = TyString) &&
  includes ["resolved"; "ignored"; "unresolved"] (prop args "status").

Definition isValidCreateCommentArgs (args : value) : bool :=
  is_object args && bool_decide (typeof (prop args "issue_id") = TyString) &&
  bool_decide (typeof (prop args "comment_text") = TyString).

(** ** Start-up configuration (index.ts 34-41) *)

Section Config.
Context `{URLPlatform}.

(** The start-up check [new URL(SENTRY_URL)] does not throw. *)
Definition url_check (SENTRY_URL : string) : bool :=
  bool_decide (is_Some (URL_pathname SENTRY_URL)).

End Config.

Definition SENTRY_BASE_URL (SENTRY_URL : string) : string :=
  if Str.endsWith SENTRY_URL "/" then Str.slice_0_m1 SENTRY_URL else SENTRY_URL.

(** ** Tool registry (index.ts 103-165)

    The listing answered to [ListTools], without the descriptions: for each
    tool its name, the declared properties with their type and enumerated
    domain, and the required properties. *)

Record PropertySchema := {
  prop_name : string;
  prop_type : string;
  prop_enum : option (list string)
}.

Record ToolDefinition := {
  name : string;
  properties : list PropertySchema;
  required : list string
}.

Definition string_prop (n : string) : PropertySchema :=
  {| prop_name := n; prop_type := "string"; prop_enum := None |}.

Definition tools : list ToolDefinition :=
  [ {| name := "get_sentry_issue";
       properties := [string_prop "issue_id_or_url"];
       required := ["issue_id_or_url"] |};
    {| name := "list_sentry_projects"; properties := []; required := [] |};
    {| name := "list_sentry_issues";
       properties :=
         [string_prop "project_slug"; string_prop "query";
          {| prop_name := "status"; prop_type := "string";
             prop_enum := Some ["resolved"; "unresolved"; "ignored"] |}];
       required := ["project_slug"] |};
    {| name := "get_sentry_event_details";
       properties := [string_prop "project_slug"; string_prop "event_id"];
       required := ["project_slug"; "event_id"] |};
    {| name := "update_sentry_issue_status";
       properties :=
         [string_prop "issue_id";
          {| prop_name := "status"; prop_type := "string";
             prop_enum := Some ["resolved"; "ignored"; "unresolved"] |}];
       required := ["issue_id"; "status"] |};
    {| name := "create_sentry_issue_comment";
       properties := [string_prop "issue_id"; string_prop "comment_text"];
       required := ["issue_id"; "comment_text"] |} ].

(** The enumerated domain a tool's schema declares for a property, if any. *)
Definition declared_enum (tool property : string) : option (list string) :=
  match List.find (fun t => String.eqb (name t) tool) tools with
  | Some t =>
      match List.find (fun p => String.eqb (prop_name p) property) (properties t) with
      | Some p => prop_enum p
      | None => None
      end
  | None => None
  end.

(** ** Upstream client and dispatcher (index.ts 167-235) *)

Inductive Method := GET | PUT | POST.

(** One call on the axios instance: method, path relative to
    [{baseUrl}/api/0/], query parameters ([params], empty when the call passes
    none) and JSON body. *)
Record Request := {
  method : Method;
  url : string;
  params : gmap string string;
  data : option json
}.

(** [error.response] of an axios error. *)
Record Response := { status : Z; body : json }.

(** What a call on the axios instance can reject with. *)
Inductive Rejection :=
| AxiosError (message : string) (response : option Response)
| JsError (message : string)
| ThrownValue.

Inductive ErrorCode := InvalidParams | MethodNotFound.

(** What can be thrown inside the handler. *)
Inductive Thrown :=
| McpError (code : ErrorCode) (message : string)
| Rejected (r : Rejection).

Record ContentItem := { type : string; text : string }.

(** The response envelope; [isError] is an optional field. *)
Record Envelope := { content : list ContentItem; isError : option bool }.

(** How a call of the handler ends: it returns an envelope or throws. *)
Inductive Outcome (A : Type) :=
| Returned (a : A)
| Threw (e : Thrown).
Arguments Returned {A} a.
Arguments Threw {A} e.

(** Handler computations: the list of upstream requests issued so far is
    threaded through, and a computation returns or throws. *)
Definition M (A : Type) : Type := list Request -> list Request * Outcome A.

Definition ret {A} (a : A) : M A := fun log => (log, Returned a).

Definition throw {A} (e : Thrown) : M A := fun log => (log, Threw e).

Definition bind {A B} (m : M A) (k : A -> M B) : M B :=
  fun log =>
    match m log with
    | (log', Returned a) => k a log'
    | (log', Threw e) => (log', Threw e)
    end.

Definition try_catch {A} (m : M A) (handler : Thrown -> M A) : M A :=
  fun log =>
    match m log with
    | (log', Returned a) => (log', Returned a)
    | (log', Threw e) => handler e log'
    end.

Notation "'let*' x ':=' m 'in' k" := (bind m (fun x => k))
  (at level 10, x name, m at level 100, k at level 200).

Section Dispatcher.
Context `{URLPlatform}.

(** The configured organization slug. *)
Variable ORG_SLUG : string.

(** The remote Sentry API: how each request ends.  On success the response
    body [response.data] is given. *)
Variable upstream : Request -> Rejection + json.

(** A call on the axios instance: the request is issued, recorded, and
    resolves to the response body or rejects. *)
Definition axios (r : Request) : M json :=
  fun log =>
    match upstream r with
    | inr response_data => ((log ++ [r])%list, Returned response_data)
    | inl rejection => ((log ++ [r])%list, Threw (Rejected rejection))
    end.

Definition axios_get (path : string) (query : gmap string string) : M json :=
  axios {| method := GET; url := path; params := query; data := None |}.

Definition axios_put (path : string) (payload : json) : M json :=
  axios {| method := PUT; url := path; params := ∅; data := Some payload |}.

Definition axios_post (path : string) (payload : json) : M json :=
  axios {| method := POST; url := path; params := ∅; data := Some payload |}.

(** [{ content: [{ type: 'text', text: JSON.stringify(response.data, null, 2) }] }] *)
Definition success (response_data : json) : Envelope :=
  {| content := [{| type := "text"; text := JSON.stringify response_data 2 |}];
     isError := None |}.

(** [{ content: [{ type: 'text', text: errorMessage }], isError: true }] *)
Definition failure (errorMessage : string) : Envelope :=
  {| content := [{| type := "text"; text := errorMessage |}];
     isError := Some true |}.

(** [{ key: v }] as a JSON body: an undefined property is not serialized. *)
Definition object1 (key : string) (v : value) : json :=
  match v with
  | Some j => JObject [(key, j)]
  | None => JObject []
  end.

(** The query parameters of [list_sentry_issues] (index.ts 185-187). *)
Definition list_issues_params (args : value) : gmap string string :=
  let params : gmap string string := ∅ in
  let params :=
    if truthy (prop args "query")
    then <["query" := as_string (prop args "query")]> params
    else params in
  if truthy (prop args "status")
  then <["query" :=
           (match params !! "query" with
            | Some q => if String.eqb q EmptyString then EmptyString else q ++ " "
            | None => EmptyString
            end) ++ "is:" ++ as_string (prop args "status")]> params
  else params.

(** The try block. *)
Definition run_tool (toolName : string) (args : value) : M Envelope :=
  if String.eqb toolName "get_sentry_issue" then
    if negb (isValidGetIssueArgs args)
    then throw (McpError InvalidParams "Invalid args for get_sentry_issue.")
    else
      match getIssueId (as_string (prop args "issue_id_or_url")) with
      | Some (String c r as issueId) =>
          let* response_data := axios_get ("issues/" ++ issueId ++ "/") ∅ in
          ret (success response_data)
      | _ =>
          throw (McpError InvalidParams
                   ("Could not extract issue ID from: "
                    ++ as_string (prop args "issue_id_or_url")))
      end
  else if String.eqb toolName "list_sentry_projects" then
    let* response_data := axios_get ("organizations/" ++ ORG_SLUG ++ "/projects/") ∅ in
    ret (success response_data)
  else if String.eqb toolName "list_sentry_issues" then
    if negb (isValidListIssuesArgs args)
    then throw (McpError InvalidParams "Invalid args for list_sentry_issues.")
    else
      let* response_data :=
        axios_get ("projects/" ++ ORG_SLUG ++ "/"
                   ++ as_string (prop args "project_slug") ++ "/issues/")
                  (list_issues_params args) in
      ret (success response_data)
  else if String.eqb toolName "get_sentry_event_details" then
    if negb (isValidGetEventArgs args)
    then throw (McpError InvalidParams "Invalid args for get_sentry_event_details.")
    else
      let* response_data :=
        axios_get ("projects/" ++ ORG_SLUG ++ "/"
                   ++ as_string (prop args "project_slug") ++ "/events/"
                   ++ as_string (prop args "event_id") ++ "/") ∅ in
      ret (success response_data)
  else if String.eqb toolName "update_sentry_issue_status" then
    if negb (isValidUpdateIssueArgs args)
    then throw (McpError InvalidParams "Invalid args for update_sentry_issue_status.")
    else
      let* response_data :=
        axios_put ("issues/" ++ as_string (prop args "issue_id") ++ "/")
                  (object1 "status" (prop args "status")) in
      ret (success response_data)
  else if String.eqb toolName "create_sentry_issue_comment" then
    if negb (isValidCreateCommentArgs args)
    then throw (McpError InvalidParams "Invalid args for create_sentry_issue_comment.")
    else
      let* response_data :=
        axios_post ("issues/" ++ as_string (prop args "issue_id") ++ "/comments/")
                   (object1 "text" (prop args "comment_text")) in
      ret (success response_data)
  else throw (McpError MethodNotFound ("Unknown tool: " ++ toolName)).

(** The message built for an axios error (index.ts 213-224). *)
Definition axios_error_message (toolName message : string)
    (response : option Response) : string :=
  let errorMessage := "Sentry API error for " ++ toolName ++ ": " ++ message in
  match response with
  | Some response =>
      let errorMessage :=
        errorMessage ++ " Status: " ++ JSON.number_to_string (status response)
        ++ ". Response: " ++ JSON.stringify (body response) 0 in
      if (status response >=? 400) && (status response <? 500) then
        if (status response =? 401) || (status response =? 403) then
          "Sentry API permission denied for " ++ toolName
          ++ ". Check auth token validity and permissions."
        else if status response =? 404 then
          "Sentry resource not found for " ++ toolName ++ ". Check IDs/slugs."
        else errorMessage
      else errorMessage
  | None => errorMessage
  end.

(** The catch block. *)
Definition on_error (toolName : string) (error : Thrown) : M Envelope :=
  match error with
  | Rejected (AxiosError message response) =>
      ret (failure (axios_error_message toolName message response))
  | McpError _ _ => throw error
  | Rejected (JsError message) => ret (failure message)
  | Rejected ThrownValue =>
      ret (failure ("Failed to execute tool " ++ toolName ++ "."))
  end.

(** The [CallToolRequest] handler. *)
Definition callTool (toolName : string) (args : value) : M Envelope :=
  try_catch (run_tool toolName args) (on_error toolName).

End Dispatcher.

(** The validator the dispatcher runs for each tool; [list_sentry_projects]
    has none. *)
Definition validator_of (toolName : string) : option (value -> bool) :=
  if String.eqb toolName "get_sentry_issue" then Some isValidGetIssueArgs
  else if String.eqb toolName "list_sentry_issues" then Some isValidListIssuesArgs
  else if String.eqb toolName "get_sentry_event_details" then Some isValidGetEventArgs
  else if String.eqb toolName "update_sentry_issue_status" then Some isValidUpdateIssueArgs
  else if String.eqb toolName "create_sentry_issue_comment" then Some isValidCreateCommentArgs
  else None.

(** The text of the envelope the catch block builds for a rejection. *)
Definition rejection_text (toolName : string) (rejection : Rejection) : string :=
  match rejection with
  | AxiosError message response => axios_error_message toolName message response
  | JsError message => message
  | ThrownValue => "Failed to execute tool " ++ toolName ++ "."
  end.

(** ** Configuration resolution and start-up (index.ts 16-42, 91-95)

    [process.env] is a finite map from variable names to strings.  The
    parsed [~/.sentryclirc] is the object [rc] that [readSentryCliRc]
    returns, a map from section names to sections (the empty map when the
    file is missing); a section maps keys to the scalars that [ini.parse]
    decodes from [key = value] lines: a string, [true] (also for a bare
    key), [false] or [null].  Array keys ([key[] = v]) are not modelled, and
    a top-level scalar named like a section reads as a missing section. *)

Inductive ini_value := IString (s : string) | IBool (b : bool) | INull.

(** A resolved setting; [None] is [undefined]. *)
Abbreviation setting := (option ini_value).

(** ToBoolean on a setting. *)
Definition is_set (v : setting) : bool :=
  match v with
  | None => false
  | Some INull => false
  | Some (IBool b) => b
  | Some (IString s) => negb (String.eqb s EmptyString)
  end.

(** ToString, as applied by a template literal and by [new URL]. *)
Definition ini_to_string (v : ini_value) : string :=
  match v with
  | IString s => s
  | IBool true => "true"
  | IBool false => "false"
  | INull => "null"
  end.

(** [a || b]. *)
Definition or_else (a b : setting) : setting := if is_set a then a else b.

(** [process.env.NAME]. *)
Definition env_var (env : gmap string string) (name : string) : setting :=
  IString <$> env !! name.

(** [rc.section?.key]. *)
Definition rc_key (rc : gmap string (gmap string ini_value)) (section key : string)
  : setting :=
  rc !! section ≫= fun entries => entries !! key.

(** How the module's top level can fail: one of the three [throw new
    Error] for a missing value (named by its variable), the [Invalid
    SENTRY_URL format] error with the offending value, or the [TypeError] of
    calling [endsWith] on a value that is not a string. *)
Inductive StartupError :=
| Missing (variable : string)
| InvalidFormat (SENTRY_URL : string)
| NotAString.

(** What the server keeps of the configuration: the [baseURL], the
    [Authorization] header and the [timeout] of the axios instance, and
    [ORG_SLUG] as the path templates print it. *)
Record ClientConfig := {
  baseURL : string;
  Authorization : string;
  timeout : Z;
  org_slug : string
}.

Section Startup.
Context `{URLPlatform}.

Definition startup (env : gmap string string) (rc : gmap string (gmap string ini_value))
  : StartupError + ClientConfig :=
  let SENTRY_URL := or_else (env_var env "SENTRY_URL") (rc_key rc "defaults" "url") in
  let SENTRY_AUTH_TOKEN :=
    or_else (env_var env "SENTRY_AUTH_TOKEN") (rc_key rc "auth" "token") in
  let SENTRY_ORG_SLUG :=
    or_else (env_var env "SENTRY_ORG_SLUG") (rc_key rc "defaults" "org") in
  if negb (is_set SENTRY_URL) then inl (Missing "SENTRY_URL")
  else if negb (is_set SENTRY_AUTH_TOKEN) then inl (Missing "SENTRY_AUTH_TOKEN")
  else if negb (is_set SENTRY_ORG_SLUG) then inl (Missing "SENTRY_ORG_SLUG")
  else
    match SENTRY_URL, SENTRY_AUTH_TOKEN, SENTRY_ORG_SLUG with
    | Some url_value, Some token, Some org =>
        if negb (url_check (ini_to_string url_value))
        then inl (InvalidFormat (ini_to_string url_value))
        else
          match url_value with
          | IString SENTRY_URL =>
              inr {| baseURL := SENTRY_BASE_URL SENTRY_URL ++ "/api/0/";
                     Authorization := "Bearer " ++ ini_to_string token;
                     timeout := 20000;
                     org_slug := ini_to_string org |}
          | _ => inl NotAString
          end
    | _, _, _ => inl (Missing "SENTRY_URL")
    end.

End Startup.

(** The three settings, with the variable that overrides each and the
    section and key read otherwise. *)
Definition settings : list (string * (string * string)) :=
  [("SENTRY_URL", ("defaults", "url"));
   ("SENTRY_AUTH_TOKEN", ("auth", "token"));
   ("SENTRY_ORG_SLUG", ("defaults", "org"))].


(** [process.env.NAME || rc.section?.key]. *)
Definition resolve (env : gmap string string) (rc : gmap string (gmap string ini_value))
    (variable section key : string) : setting :=
  or_else (env_var env variable) (rc_key rc section key).

(** ** Reading the declared input schemas

    The registry's schemas are data sent to the client; the dispatcher does
    not interpret them.  [conforms] reads a schema the way JSON Schema does
    for the keywords these schemas use: the bag is an object, a declared
    property that is present is a string and a member of its [enum] when
    it has one, and a required property is present. *)

Definition property_conforms (args : value) (is_required : bool) (p : PropertySchema) : bool :=
  match prop args (prop_name p) with
  | None => negb is_required
  | Some (JString s) =>
      String.eqb (prop_type p) "string" &&
      match prop_enum p with
      | Some domain => existsb (String.eqb s) domain
      | None => true
      end
  | Some _ => false
  end.

Definition conforms (tool : ToolDefinition) (args : value) : bool :=
  match args with
  | Some (JObject _) =>
      forallb (fun p =>
                 property_conforms args
                   (existsb (String.eqb (prop_name p)) (required tool)) p)
              (properties tool)
  | _ => false
  end.

(** The registry entry of a tool name. *)
Definition tool_named (toolName : string) : option ToolDefinition :=
  List.find (fun t => String.eqb (name t) toolName) tools.

(** ** Statements

    The claims of the specification that the code does not satisfy as they
    are written, as predicates to be refuted at an input, and the inputs the
    concrete runs use. *)

Section Statements.
Context `{URLPlatform}.
Variable ORG_SLUG : string.
Variable upstream : Request -> Rejection + json.

(** The statement of C2 at one input: whichever ["issues"] segment of the
    URL's path is followed by an all-digit segment, that segment is
    returned. *)
Definition returns_any_issue_reference (input : string) : Prop :=
  forall pathname (i : nat) d,
    URL_pathname input = Some pathname ->
    split pathname !! i = Some "issues" ->
    split pathname !! S i = Some d ->
    test_digits d = true ->
    getIssueId input = Some d.

(** The inputs of C8: a URL with an ["issues"] segment none of which is
    followed by an all-digit segment, a URL with no ["issues"] segment, or a
    string that is neither a URL nor numeric. *)
Inductive no_reference (input : string) : Prop :=
| issues_without_digits pathname :
    URL_pathname input = Some pathname ->
    "issues" ∈ split pathname ->
    (forall (i : nat) d,
        split pathname !! i = Some "issues" ->
        split pathname !! S i = Some d -> test_digits d = false) ->
    no_reference input
| no_issues_segment pathname :
    URL_pathname input = Some pathname ->
    "issues" ∉ split pathname ->
    no_reference input
| not_url_not_numeric :
    URL_pathname input = None ->
    test_digits input = false ->
    no_reference input.

(** The statement of C9 at one configured URL. *)
Definition base_url_has_no_trailing_slash (SENTRY_URL : string) : Prop :=
  url_check SENTRY_URL = true ->
  Str.endsWith (SENTRY_BASE_URL SENTRY_URL) "/" = false.

(** The statement of C3 and of its amendment: every call whose request
    succeeded upstream returns an envelope with the pretty-printed body as
    its one text item and [flag] as its [isError] field. *)
Definition success_envelope (flag : option bool) (toolName : string) (args : value) : Prop :=
  forall log r out response_data,
    callTool ORG_SLUG upstream toolName args log = ((log ++ [r])%list, out) ->
    upstream r = inr response_data ->
    out = Returned {| content := [{| type := "text";
                                     text := JSON.stringify response_data 2 |}];
                      isError := flag |}.

(** The statement of C6 at one accepted bag: whenever a status is given,
    [is:{status}] is appended to the query, after a space when a query is
    given too. *)
Definition status_always_appended (args : value) : Prop :=
  isValidListIssuesArgs args = true ->
  forall status,
    prop args "status" = Some (JString status) ->
    list_issues_params args !! "query" =
    Some (match prop args "query" with
          | Some (JString query) => query ++ " " ++ "is:" ++ status
          | _ => "is:" ++ status
          end).

End Statements.

Module Examples.

Definition issue_body : json := JObject [("id", JString "1")].

(** An upstream that answers every request with status 200 and [issue_body]. *)
Definition upstream_ok (_ : Request) : Rejection + json := inr issue_body.

Definition not_found : Rejection :=
  AxiosError "Request failed with status code 404"
    (Some {| status := 404;
             body := JObject [("detail", JString "The requested resource does not exist")] |}).

(** An upstream that answers every request with status 404. *)
Definition upstream_404 (_ : Request) : Rejection + json := inl not_found.

Definition get_issue_args (reference : string) : value :=
  Some (JObject [("issue_id_or_url", JString reference)]).

Definition get_issue_request (id : string) : Request :=
  {| method := GET; url := "issues/" ++ id ++ "/"; params := ∅; data := None |}.

Definition list_issues_args (fields : list (string * string)) : value :=
  Some (JObject (List.map (fun kv => (fst kv, JString (snd kv))) fields)).

(** The pretty-printed [issue_body]: an opening brace, the member indented by
    two spaces on its own line, a closing brace. *)
Definition issue_body_text : string :=
  "{" ++ JSON.nl ++ "  " ++ String quote "id" ++ String quote ": "
      ++ String quote "1" ++ String quote JSON.nl ++ "}".

End Examples.

Module StartupExamples.

(** The rc file of the README: a token under [auth], the URL and the
    organization under [defaults]. *)
Definition rc : gmap string (gmap string ini_value) :=
  {[ "auth" := {[ "token" := IString "secret" ]};
     "defaults" := {[ "url" := IString "https://sentry.example.com/";
                      "org" := IString "acme" ]} ]}.

Definition env : gmap string string :=
  {[ "SENTRY_URL" := "https://sentry.internal";
     "SENTRY_AUTH_TOKEN" := "other";
     "SENTRY_ORG_SLUG" := "ops" ]}.

End StartupExamples.

Import Examples.

(** ** Facts on the string primitives *)

(** Refutes membership of a literal in a list of other literals. *)
Ltac refute_elem_of :=
  let Hin := fresh "Hin" in
  intros Hin%list_elem_of_In; simpl in Hin;
  repeat destruct Hin as [Hin|Hin]; try discriminate; done.

Section StringFacts.

Lemma drop_while_head f s :
  Str.drop_while f s = EmptyString \/
  exists c r, Str.drop_while f s = String c r /\ f c = false.
Proof.
  induction s as [|c r IH]; simpl; [by left|].
  destruct (f c) eqn:Hc; [exact IH|]. right. by exists c, r.
Qed.

Lemma drop_trailing_head f c r :
  f c = false -> exists r', Str.drop_trailing f (String c r) = String c r'.
Proof.
  intros Hc. simpl. destruct (Str.drop_trailing f r) as [|d r'].
  - rewrite Hc. by eexists.
  - by eexists.
Qed.

Lemma digit_not_alpha c : is_ascii_digit c = true -> is_ascii_alpha c = false.
Proof.
  unfold is_ascii_digit, is_ascii_alpha, is_ascii_upper, is_ascii_lower, between.
  rewrite andb_true_iff, orb_false_iff, !andb_false_iff, !Nat.leb_le, !Nat.leb_gt.
  lia.
Qed.

Lemma digit_not_c0_or_space c : is_ascii_digit c = true -> is_c0_or_space c = false.
Proof.
  unfold is_ascii_digit, is_c0_or_space, between.
  rewrite andb_true_iff, !Nat.leb_le, Nat.leb_gt. lia.
Qed.

Lemma tab_or_newline_c0 c : is_tab_or_newline c = true -> is_c0_or_space c = true.
Proof.
  unfold is_tab_or_newline, is_c0_or_space.
  rewrite !orb_true_iff, !Nat.eqb_eq, Nat.leb_le. lia.
Qed.

(** A string of digits does not start a scheme. *)
Lemma digits_no_scheme s : test_digits s = true -> scheme_start s = false.
Proof.
  destruct s as [|c r]; [done|]. simpl. intros [Hc _]%andb_true_iff.
  unfold scheme_start. simpl.
  rewrite (digit_not_c0_or_space _ Hc). by apply digit_not_alpha.
Qed.

Lemma indexOf_from_spec parts x : forall i,
  (indexOf_from i parts x = -1 /\ forall j, parts !! j <> Some x) \/
  (exists k : nat,
      indexOf_from i parts x = i + Z.of_nat k /\ parts !! k = Some x /\
      forall j : nat, (j < k)%nat -> parts !! j <> Some x).
Proof.
  induction parts as [|y rest IH]; intros i; simpl.
  - left. split; [done|]. by intros [|j].
  - destruct (String.eqb_spec y x) as [->|Hne].
    + right. exists 0%nat. split; [lia|]. split; [done|]. lia.
    + destruct (IH (i + 1)) as [[Hm Hno]|(k & Hk & Hat & Hbefore)].
      * left. split; [done|]. intros [|j]; simpl; [congruence|apply Hno].
      * right. exists (S k). split; [lia|]. split; [done|].
        intros [|j] Hj; simpl; [congruence|]. apply Hbefore. lia.
Qed.

(** [indexOf] answers [-1] or the position of the first occurrence. *)
Lemma indexOf_spec parts x :
  (indexOf parts x = -1 /\ forall j, parts !! j <> Some x) \/
  (exists k : nat,
      indexOf parts x = Z.of_nat k /\ parts !! k = Some x /\
      forall j : nat, (j < k)%nat -> parts !! j <> Some x).
Proof.
  destruct (indexOf_from_spec parts x 0) as [?|(k & Hk & ?)]; [by left|].
  right. exists k. by rewrite Z.add_0_l in Hk.
Qed.

End StringFacts.

(** The model fails where the standard's scheme start state fails, so it
    is an instance of the interface. *)
Lemma whatwg_needs_scheme input p :
  Whatwg.pathname input = Some p -> scheme_start input = true.
Proof.
  unfold Whatwg.pathname, Whatwg.preprocess, scheme_start.
  destruct (drop_while_head is_c0_or_space input) as [->|(c & r & -> & Hc)];
    [done|].
  destruct (drop_trailing_head is_c0_or_space c r Hc) as [r' ->]. simpl.
  destruct (is_tab_or_newline c) eqn:Htab.
  { apply tab_or_newline_c0 in Htab. congruence. }
  simpl. by destruct (is_ascii_alpha c).
Qed.

#[export] Instance WhatwgURL : URLPlatform :=
  {| URL_pathname := Whatwg.pathname; URL_needs_scheme := whatwg_needs_scheme |}.

(** ** Properties of the normalizer *)

Section NormalizerFacts.
Context `{URLPlatform}.

(** The try block on a parsed URL, in terms of the first ["issues"] segment. *)
Lemma getIssueId_url input pathname :
  URL_pathname input = Some pathname ->
  (getIssueId input = None /\ forall j, split pathname !! j <> Some "issues") \/
  (exists k : nat,
      split pathname !! k = Some "issues" /\
      (forall j : nat, (j < k)%nat -> split pathname !! j <> Some "issues") /\
      getIssueId input =
        match split pathname !! S k with
        | Some potentialId => if test_digits potentialId then Some potentialId else None
        | None => None
        end).
Proof.
  intros Hurl. unfold getIssueId. rewrite Hurl. simpl.
  destruct (indexOf_spec (split pathname) "issues")
    as [[-> Hno]|(k & -> & Hat & Hfirst)].
  - by left.
  - right. exists k. split; [done|]. split; [done|].
    replace (Z.to_nat (Z.of_nat k + 1)) with (S k) by lia.
    replace (Z.of_nat k =? -1) with false by (symmetry; apply Z.eqb_neq; lia).
    simpl. destruct (Z.gtb_spec (Z.of_nat (length (split pathname))) (Z.of_nat k + 1))
      as [Hlen|Hlen]; [done|].
    rewrite (lookup_ge_None_2 (split pathname) (S k)); [done|lia].
Qed.

(** The catch block. *)
Lemma getIssueId_not_url input :
  URL_pathname input = None ->
  getIssueId input = if test_digits input then Some input else None.
Proof. intros Hurl. unfold getIssueId. by rewrite Hurl. Qed.

End NormalizerFacts.

(** ** The normalizer: claims *)

Section NormalizerClaims.
Context `{URLPlatform}.

(** C2, amended: when the input parses as a URL and the FIRST path segment
    equal to ["issues"] is followed by a segment of one or more ASCII digits,
    [getIssueId] returns that digit segment. *)
Theorem getIssueId_first_issues_segment input pathname (i : nat) d :
  URL_pathname input = Some pathname ->
  split pathname !! i = Some "issues" ->
  (forall j : nat, (j < i)%nat -> split pathname !! j <> Some "issues") ->
  split pathname !! S i = Some d ->
  test_digits d = true ->
  getIssueId input = Some d.
Proof.
  intros Hurl Hi Hfirst Hnext Hd.
  destruct (getIssueId_url input pathname Hurl)
    as [[_ Hno]|(k & Hk & Hkfirst & ->)].
  - by destruct (Hno i).
  - assert (k = i) as ->.
    { destruct (Nat.lt_trichotomy k i) as [Hlt|[Heq|Hgt]]; [|done|].
      - by destruct (Hfirst k Hlt).
      - by destruct (Hkfirst i Hgt). }
    by rewrite Hnext, Hd.
Qed.

(** C7: for every input matching [^\d+$], [getIssueId] returns the input
    unchanged. *)
Theorem getIssueId_numeric input :
  test_digits input = true -> getIssueId input = Some input.
Proof.
  intros Hd. rewrite getIssueId_not_url, Hd; [done|].
  destruct (URL_pathname input) as [p|] eqn:Hurl; [|done].
  apply URL_needs_scheme in Hurl. rewrite (digits_no_scheme _ Hd) in Hurl.
  discriminate.
Qed.

(** C8: on a URL whose ["issues"] segments are not followed by an all-digit
    segment, on a URL without ["issues"] segment and on a non-URL non-numeric
    string, [getIssueId] returns the no-match value [null]; being a total
    function, it returns on every input (a failed URL parse is caught). *)
Theorem getIssueId_no_match input :
  no_reference input -> getIssueId input = None.
Proof.
  intros [pathname Hurl _ Hnodigits|pathname Hurl Hnone|Hurl Hd].
  - destruct (getIssueId_url input pathname Hurl)
      as [[-> _]|(k & Hk & _ & ->)]; [done|].
    destruct (split pathname !! S k) as [d|] eqn:Hnext; [|done].
    by rewrite (Hnodigits k d Hk Hnext).
  - destruct (getIssueId_url input pathname Hurl)
      as [[-> _]|(k & Hk & _ & _)]; [done|].
    destruct Hnone. by eapply list_elem_of_lookup_2.
  - by rewrite getIssueId_not_url, Hd.
Qed.

(** C10: on every input [getIssueId] returns [null] or a string matching
    [^\d+$]. *)
Theorem getIssueId_null_or_digits input :
  getIssueId input = None \/
  exists d, getIssueId input = Some d /\ test_digits d = true.
Proof.
  destruct (URL_pathname input) as [pathname|] eqn:Hurl.
  - destruct (getIssueId_url input pathname Hurl)
      as [[-> _]|(k & _ & _ & ->)]; [by left|].
    destruct (split pathname !! S k) as [d|]; [|by left].
    destruct (test_digits d) eqn:Hd; [|by left]. right. by exists d.
  - rewrite getIssueId_not_url by done.
    destruct (test_digits input) eqn:Hd; [|by left]. right. by exists input.
Qed.

End NormalizerClaims.

(** C2 as stated fails: with an organization whose slug is [issues], the
    path has an ["issues"] segment followed by digits, and [getIssueId]
    answers [null] because the first ["issues"] segment is followed by
    ["issues"]. *)
Lemma getIssueId_later_issues_segment_missed :
  ~ returns_any_issue_reference (H := WhatwgURL)
      "https://sentry.example.com/organizations/issues/issues/42/".
Proof.
  intros Hclaim.
  specialize (Hclaim "/organizations/issues/issues/42/" 3%nat "42"
                eq_refl eq_refl eq_refl eq_refl).
  vm_compute in Hclaim. discriminate.
Qed.

Lemma getIssueId_first_issues_segment_witness :
  getIssueId (H := WhatwgURL)
    "https://sentry.example.com/organizations/acme/issues/12345/?project=1"
  = Some "12345".
Proof.
  apply (getIssueId_first_issues_segment (H := WhatwgURL) _
           "/organizations/acme/issues/12345/" 3%nat "12345");
    [reflexivity|reflexivity| |reflexivity|reflexivity].
  intros [|[|[|j]]] Hj; simpl; [discriminate..|lia].
Defined.

Lemma getIssueId_numeric_witness :
  getIssueId (H := WhatwgURL) "12345" = Some "12345".
Proof. apply (getIssueId_numeric (H := WhatwgURL) "12345"). reflexivity. Defined.

Lemma getIssueId_no_match_witness :
  getIssueId (H := WhatwgURL) "https://sentry.example.com/issues/latest/" = None /\
  getIssueId (H := WhatwgURL) "https://sentry.example.com/organizations/acme/" = None /\
  getIssueId (H := WhatwgURL) "abc" = None.
Proof.
  split; [|split]; apply (getIssueId_no_match (H := WhatwgURL)).
  - apply (issues_without_digits _ "/issues/latest/"); [reflexivity| |].
    + apply list_elem_of_In. simpl. tauto.
    + intros [|[|[|[|i]]]] d; simpl; try discriminate.
      intros _ [= <-]. reflexivity.
  - apply (no_issues_segment _ "/organizations/acme/"); [reflexivity|].
    refute_elem_of.
  - apply not_url_not_numeric; reflexivity.
Defined.

(** ** Start-up configuration: claims *)

Lemma append_cons c (a b : string) : String c a ++ b = String c (a ++ b).
Proof. reflexivity. Qed.

Lemma string_app_assoc (a b c : string) : (a ++ b) ++ c = a ++ b ++ c.
Proof.
  induction a as [|x a IH]; [done|]. by rewrite !append_cons, IH.
Qed.

Lemma endsWith_iff s suffix :
  Str.endsWith s suffix = true <-> exists v, s = v ++ suffix.
Proof.
  induction s as [|c r IH]; cbn [Str.endsWith].
  - rewrite orb_false_r, String.eqb_eq. split.
    + intros <-. by exists EmptyString.
    + intros [[|d v] Hv]; [done|discriminate].
  - rewrite orb_true_iff, String.eqb_eq, IH. split.
    + intros [<-|[v ->]]; [by exists EmptyString|by exists (String c v)].
    + intros [[|d v] Hv]; [by left|]. right. exists v.
      rewrite append_cons in Hv. by injection Hv.
Qed.

Lemma slice_0_m1_app v c : Str.slice_0_m1 (v ++ String c EmptyString) = v.
Proof.
  induction v as [|d v IH]; [done|].
  rewrite append_cons. cbn [Str.slice_0_m1]. rewrite IH.
  destruct v; [done|]. by rewrite append_cons.
Qed.

(** Whether the base URL ends with a slash: exactly when [SENTRY_URL] ends
    with two. *)
Lemma SENTRY_BASE_URL_slash SENTRY_URL :
  Str.endsWith (SENTRY_BASE_URL SENTRY_URL) "/" = Str.endsWith SENTRY_URL "//".
Proof.
  apply eq_true_iff_eq. unfold SENTRY_BASE_URL.
  destruct (Str.endsWith SENTRY_URL "/") eqn:Hslash.
  - apply endsWith_iff in Hslash as [v ->].
    rewrite slice_0_m1_app, !endsWith_iff. split.
    + intros [w ->]. exists w. by rewrite string_app_assoc.
    + intros [w Hw]. exists w.
      apply (f_equal Str.slice_0_m1) in Hw.
      change (w ++ "//") with (w ++ "/" ++ "/") in Hw.
      by rewrite <- string_app_assoc, !slice_0_m1_app in Hw.
  - rewrite Hslash. split; [done|]. intros [w ->]%endsWith_iff.
    apply not_true_iff_false in Hslash. destruct Hslash.
    apply endsWith_iff. exists (w ++ "/"). by rewrite string_app_assoc.
Qed.

Section ConfigClaims.
Context `{URLPlatform}.

(** C9, amended: for every configured SENTRY_URL that passes the start-up
    check and does not end with two slashes, the base URL has no trailing
    slash (one trailing slash is removed, never more). *)
Theorem SENTRY_BASE_URL_no_trailing_slash SENTRY_URL :
  url_check SENTRY_URL = true ->
  Str.endsWith SENTRY_URL "//" = false ->
  Str.endsWith (SENTRY_BASE_URL SENTRY_URL) "/" = false.
Proof. intros _ Hno. by rewrite SENTRY_BASE_URL_slash. Qed.

End ConfigClaims.

(** C9 as stated fails: a URL ending with two slashes passes the start-up
    check and keeps one of them. *)
Lemma SENTRY_BASE_URL_keeps_second_slash :
  ~ base_url_has_no_trailing_slash (H := WhatwgURL) "https://sentry.example.com//".
Proof. intros Hclaim. specialize (Hclaim eq_refl). discriminate. Qed.

Lemma SENTRY_BASE_URL_no_trailing_slash_witness :
  SENTRY_BASE_URL "https://sentry.example.com/" = "https://sentry.example.com" /\
  Str.endsWith (SENTRY_BASE_URL "https://sentry.example.com/") "/" = false.
Proof.
  split; [reflexivity|].
  apply (SENTRY_BASE_URL_no_trailing_slash (H := WhatwgURL)); reflexivity.
Defined.

(** ** Validators: claims *)

(** [isValidUpdateIssueArgs] accepts a bag only with a status of the
    enumeration its schema declares. *)
Lemma isValidUpdateIssueArgs_status args :
  isValidUpdateIssueArgs args = true ->
  exists s, prop args "status" = Some (JString s) /\
            declared_enum "update_sentry_issue_status" "status" = Some ["resolved"; "ignored"; "unresolved"] /\
            s ∈ ["resolved"; "ignored"; "unresolved"].
Proof.
  unfold isValidUpdateIssueArgs, includes.
  intros [_ Hin]%andb_true_iff.
  destruct (prop args "status") as [[| | |s| |]|]; try discriminate.
  exists s. split; [done|]. split; [done|].
  apply list_elem_of_In. apply existsb_exists in Hin as (x & Hx & ->%String.eqb_eq).
  done.
Qed.

(** C1, at the failing input: the schema of [list_sentry_issues] declares
    the enumeration [resolved], [unresolved], [ignored] for [status], and its
    validator accepts a bag whose status, ["closed"], is none of them. *)
Theorem isValidListIssuesArgs_accepts_other_status :
  declared_enum "list_sentry_issues" "status" = Some ["resolved"; "unresolved"; "ignored"] /\
  isValidListIssuesArgs
    (Some (JObject [("project_slug", JString "web"); ("status", JString "closed")]))
  = true /\
  "closed" ∉ ["resolved"; "unresolved"; "ignored"].
Proof.
  split; [reflexivity|]. split; [reflexivity|].
  refute_elem_of.
Qed.

(** ** Dispatcher: how a call ends *)

Section DispatcherFacts.
Context `{URLPlatform}.
Variable ORG_SLUG : string.
Variable upstream : Request -> Rejection + json.

Lemma call_then_success r log :
  (let* response_data := axios upstream r in ret (success response_data)) log =
  ((log ++ [r])%list,
   match upstream r with
   | inr response_data => Returned (success response_data)
   | inl rejection => Threw (Rejected rejection)
   end).
Proof. unfold bind, axios, ret. by destruct (upstream r). Qed.

(** The try block throws a protocol error before any request, or issues
    exactly one request and ends as the upstream does. *)
Lemma run_tool_cases toolName args log :
  (exists code message,
      run_tool ORG_SLUG upstream toolName args log = (log, Threw (McpError code message))) \/
  (exists r,
      run_tool ORG_SLUG upstream toolName args log =
      ((log ++ [r])%list,
       match upstream r with
       | inr response_data => Returned (success response_data)
       | inl rejection => Threw (Rejected rejection)
       end)).
Proof.
  unfold run_tool.
  repeat case_match;
    try (left; unfold throw; by eauto);
    right; eexists; apply call_then_success.
Qed.

Lemma on_error_rejected toolName rejection log :
  on_error toolName (Rejected rejection) log =
  (log, Returned (failure (rejection_text toolName rejection))).
Proof. by destruct rejection. Qed.

(** The handler: a protocol error with no request issued, or one request
    and an envelope. *)
Lemma callTool_cases toolName args log :
  (exists code message,
      callTool ORG_SLUG upstream toolName args log = (log, Threw (McpError code message)) /\
      run_tool ORG_SLUG upstream toolName args log = (log, Threw (McpError code message))) \/
  (exists r,
      callTool ORG_SLUG upstream toolName args log =
      ((log ++ [r])%list,
       match upstream r with
       | inr response_data => Returned (success response_data)
       | inl rejection => Returned (failure (rejection_text toolName rejection))
       end)).
Proof.
  unfold callTool, try_catch.
  destruct (run_tool_cases toolName args log) as [(code & message & ->)|(r & ->)].
  - left. by exists code, message.
  - right. exists r. destruct (upstream r) as [rejection|response_data]; [|done].
    by rewrite on_error_rejected.
Qed.

Lemma log_grows (log : list Request) r : log <> (log ++ [r])%list.
Proof.
  intros Heq%(f_equal length). rewrite length_app in Heq. simpl in Heq. lia.
Qed.

(** A call that issued the request [r] ended as [r] did upstream. *)
Lemma callTool_issued toolName args log r out :
  callTool ORG_SLUG upstream toolName args log = ((log ++ [r])%list, out) ->
  out = match upstream r with
        | inr response_data => Returned (success response_data)
        | inl rejection => Returned (failure (rejection_text toolName rejection))
        end.
Proof.
  destruct (callTool_cases toolName args log)
    as [(code & message & -> & _)|(r' & ->)].
  - intros [= Hlog _]. by destruct (log_grows log r).
  - intros [= Hlog <-]. by apply app_inv_head in Hlog as [= ->].
Qed.

End DispatcherFacts.

(** ** Dispatcher: claims *)

Section DispatcherClaims.
Context `{URLPlatform}.
Variable ORG_SLUG : string.
Variable upstream : Request -> Rejection + json.

(** C3, amended: for every tool call whose upstream request succeeds, the
    handler returns an envelope whose single text item is the pretty-printed
    JSON serialization of the response body and which has no [isError]
    field (the field is left out, not set to [false]). *)
Theorem success_envelope_without_isError toolName args :
  success_envelope ORG_SLUG upstream None toolName args.
Proof.
  intros log r out response_data Hcall Hup.
  apply callTool_issued in Hcall. by rewrite Hup in Hcall.
Qed.

(** C4: for every tool call whose upstream request fails, the handler
    returns (it does not throw) an envelope with [isError = true] and one
    text item; for a response with status 401 or 403 the text is the fixed
    permission-denied message naming the tool, for 404 the fixed not-found
    message naming the tool (neither contains the response body), and for
    any other 4xx or 5xx status it includes the status code and the
    serialized response body. *)
Theorem upstream_failure_envelope toolName args log r out rejection :
  callTool ORG_SLUG upstream toolName args log = ((log ++ [r])%list, out) ->
  upstream r = inl rejection ->
  exists errorMessage,
    out = Returned {| content := [{| type := "text"; text := errorMessage |}];
                      isError := Some true |} /\
    forall message response,
      rejection = AxiosError message (Some response) ->
      (status response = 401 \/ status response = 403 ->
       errorMessage = "Sentry API permission denied for " ++ toolName
                      ++ ". Check auth token validity and permissions.") /\
      (status response = 404 ->
       errorMessage = "Sentry resource not found for " ++ toolName ++ ". Check IDs/slugs." /\
       Str.includes errorMessage "not found" /\
       Str.includes errorMessage toolName) /\
      (400 <= status response < 600 ->
       status response <> 401 -> status response <> 403 -> status response <> 404 ->
       Str.includes errorMessage (JSON.number_to_string (status response)) /\
       Str.includes errorMessage (JSON.stringify (body response) 0)).
Proof.
  intros Hcall Hup. apply callTool_issued in Hcall. rewrite Hup in Hcall.
  exists (rejection_text toolName rejection). split; [done|].
  intros message [code data] ->. cbn [rejection_text axios_error_message status body].
  split; [|split].
  - intros [-> | ->]; reflexivity.
  - intros ->. cbn. split; [done|]. split.
    + exists "Sentry resource ", (" for " ++ toolName ++ ". Check IDs/slugs."). done.
    + exists "Sentry resource not found for ", ". Check IDs/slugs.". done.
  - intros Hrange H401 H403 H404.
    replace (code =? 401) with false by (symmetry; by apply Z.eqb_neq).
    replace (code =? 403) with false by (symmetry; by apply Z.eqb_neq).
    replace (code =? 404) with false by (symmetry; by apply Z.eqb_neq).
    cbn [orb]. rewrite !Tauto.if_same.
    set (prefix := "Sentry API error for " ++ toolName ++ ": " ++ message).
    split.
    + exists (prefix ++ " Status: "), (". Response: " ++ JSON.stringify data 0).
      by rewrite string_app_assoc.
    + exists (prefix ++ " Status: " ++ JSON.number_to_string code ++ ". Response: "),
             EmptyString.
      rewrite !string_app_assoc. do 4 f_equal.
      generalize (JSON.stringify data 0). intros s.
      induction s as [|c s IH]; [done|]. by rewrite append_cons, <- IH.
Qed.

(** C5: an unknown tool name ends in a thrown [MethodNotFound] protocol
    error, a bag rejected by the tool's validator and an issue reference the
    normalizer cannot resolve end in a thrown [InvalidParams] protocol error;
    in each case the error is thrown out of the handler (no envelope is
    returned) and no upstream request has been issued. *)
Theorem protocol_faults toolName args log :
  (toolName ∉ List.map name tools ->
   callTool ORG_SLUG upstream toolName args log =
   (log, Threw (McpError MethodNotFound ("Unknown tool: " ++ toolName)))) /\
  (forall validate,
      validator_of toolName = Some validate -> validate args = false ->
      callTool ORG_SLUG upstream toolName args log =
      (log, Threw (McpError InvalidParams ("Invalid args for " ++ toolName ++ ".")))) /\
  (toolName = "get_sentry_issue" -> isValidGetIssueArgs args = true ->
   getIssueId (as_string (prop args "issue_id_or_url")) = None ->
   callTool ORG_SLUG upstream toolName args log =
   (log, Threw (McpError InvalidParams
                  ("Could not extract issue ID from: "
                   ++ as_string (prop args "issue_id_or_url"))))).
Proof.
  split; [|split].
  - intros Hnot. unfold callTool, try_catch, run_tool.
    repeat match goal with
    | |- context [String.eqb toolName ?s] =>
        destruct (String.eqb_spec toolName s) as [->|_];
          [destruct Hnot; apply list_elem_of_In; simpl; tauto|]
    end.
    reflexivity.
  - intros validate Hv Hfalse. unfold validator_of in Hv.
    repeat match type of Hv with
    | context [String.eqb toolName ?s] =>
        destruct (String.eqb_spec toolName s) as [->|_]
    end; try discriminate; injection Hv as <-;
    unfold callTool, try_catch, run_tool; cbn; by rewrite Hfalse.
  - intros -> Hvalid Hnone. unfold callTool, try_catch, run_tool. cbn.
    by rewrite Hvalid, Hnone.
Qed.

(** C6, amended: for every accepted [list_sentry_issues] call with a
    non-empty status, the one request issued carries the query parameter
    [query], which is [is:{status}] when no query or an empty query is
    given, and the query, one space and [is:{status}] when a non-empty query
    is given. *)
Theorem list_issues_query_parameter args log status :
  isValidListIssuesArgs args = true ->
  prop args "status" = Some (JString status) ->
  status <> EmptyString ->
  exists r out,
    callTool ORG_SLUG upstream "list_sentry_issues" args log = ((log ++ [r])%list, out) /\
    method r = GET /\
    url r = "projects/" ++ ORG_SLUG ++ "/" ++ as_string (prop args "project_slug") ++ "/issues/" /\
    (prop args "query" = None \/ prop args "query" = Some (JString EmptyString) ->
     params r !! "query" = Some ("is:" ++ status)) /\
    (forall query,
        prop args "query" = Some (JString query) -> query <> EmptyString ->
        params r !! "query" = Some (query ++ " is:" ++ status)).
Proof.
  intros Hvalid Hstatus Hne.
  assert (truthy (prop args "status") = true) as Htruthy.
  { rewrite Hstatus. simpl. by destruct (String.eqb_spec status EmptyString). }
  set (r := {| method := GET;
               url := "projects/" ++ ORG_SLUG ++ "/"
                      ++ as_string (prop args "project_slug") ++ "/issues/";
               params := list_issues_params args; data := None |}).
  assert (run_tool ORG_SLUG upstream "list_sentry_issues" args log =
          (let* response_data := axios upstream r in ret (success response_data)) log)
    as Hrun by (unfold run_tool; rewrite Hvalid; reflexivity).
  unfold callTool, try_catch. rewrite Hrun, call_then_success.
  exists r.
  exists (match upstream r with
          | inr response_data => Returned (success response_data)
          | inl rejection =>
              Returned (failure (rejection_text "list_sentry_issues" rejection))
          end).
  split.
  { destruct (upstream r); [rewrite on_error_rejected|]; reflexivity. }
  clear Hrun. subst r. cbn [method url params]. split; [done|]. split; [done|].
  unfold list_issues_params. rewrite Htruthy, Hstatus. cbn [as_string].
  split.
  - intros [-> | ->]; cbn; by rewrite lookup_insert_eq, lookup_empty.
  - intros query -> Hq. cbn.
    destruct (String.eqb_spec query EmptyString) as [|_]; [done|]. cbn.
    rewrite lookup_insert_eq, lookup_insert_eq.
    destruct (String.eqb_spec query EmptyString) as [|_]; [done|].
    by rewrite string_app_assoc.
Qed.

End DispatcherClaims.

(** ** Dispatcher: concrete runs *)

Lemma stringify_issue_body : JSON.stringify issue_body 2 = issue_body_text.
Proof. reflexivity. Qed.

(** C3 as stated fails: the envelope returned for a successful
    [get_sentry_issue] has no [isError] field, so the field is not
    [false]. *)
Lemma success_envelope_isError_not_false :
  ~ success_envelope (H := WhatwgURL) "acme" upstream_ok (Some false)
      "get_sentry_issue" (get_issue_args "1").
Proof.
  intros Hclaim.
  specialize (Hclaim [] (get_issue_request "1") (Returned (success issue_body))
                issue_body eq_refl eq_refl).
  discriminate.
Qed.

Lemma success_envelope_without_isError_witness :
  snd (callTool (H := WhatwgURL) "acme" upstream_ok "get_sentry_issue"
         (get_issue_args "1") [])
  = Returned {| content := [{| type := "text"; text := issue_body_text |}];
                isError := None |}.
Proof.
  apply (success_envelope_without_isError (H := WhatwgURL) "acme" upstream_ok
           "get_sentry_issue" (get_issue_args "1") [] (get_issue_request "1") _
           issue_body);
    reflexivity.
Defined.

Lemma upstream_failure_envelope_witness :
  exists errorMessage,
    snd (callTool (H := WhatwgURL) "acme" upstream_404 "get_sentry_issue"
           (get_issue_args "1") [])
    = Returned {| content := [{| type := "text"; text := errorMessage |}];
                  isError := Some true |} /\
    errorMessage = "Sentry resource not found for get_sentry_issue. Check IDs/slugs." /\
    Str.includes errorMessage "not found" /\
    Str.includes errorMessage "get_sentry_issue".
Proof.
  destruct (upstream_failure_envelope (H := WhatwgURL) "acme" upstream_404
              "get_sentry_issue" (get_issue_args "1") [] (get_issue_request "1")
              _ not_found eq_refl eq_refl)
    as (errorMessage & Hout & Hcases).
  exists errorMessage. split; [exact Hout|].
  destruct (Hcases _ _ eq_refl) as (_ & H404 & _). apply H404. reflexivity.
Defined.

Lemma protocol_faults_witness :
  callTool (H := WhatwgURL) "acme" upstream_ok "delete_sentry_issue" (get_issue_args "1") []
  = ([], Threw (McpError MethodNotFound "Unknown tool: delete_sentry_issue")) /\
  callTool (H := WhatwgURL) "acme" upstream_ok "get_sentry_issue" (Some (JObject [])) []
  = ([], Threw (McpError InvalidParams "Invalid args for get_sentry_issue.")) /\
  callTool (H := WhatwgURL) "acme" upstream_ok "get_sentry_issue" (get_issue_args "abc") []
  = ([], Threw (McpError InvalidParams "Could not extract issue ID from: abc")).
Proof.
  split; [|split].
  - apply (proj1 (protocol_faults (H := WhatwgURL) "acme" upstream_ok
                    "delete_sentry_issue" (get_issue_args "1") [])).
    refute_elem_of.
  - apply (proj1 (proj2 (protocol_faults (H := WhatwgURL) "acme" upstream_ok
                           "get_sentry_issue" (Some (JObject [])) []))
             isValidGetIssueArgs); reflexivity.
  - apply (proj2 (proj2 (protocol_faults (H := WhatwgURL) "acme" upstream_ok
                           "get_sentry_issue" (get_issue_args "abc") [])));
      reflexivity.
Defined.

(** C6 as stated fails on empty strings, which the validator accepts: an
    empty status is given and nothing is appended; an empty query is given
    and no space is put before [is:resolved]. *)
Lemma status_not_always_appended :
  ~ status_always_appended (list_issues_args [("project_slug", "web"); ("status", "")]) /\
  ~ status_always_appended
      (list_issues_args [("project_slug", "web"); ("query", ""); ("status", "resolved")]).
Proof.
  split; intros Hclaim.
  - specialize (Hclaim eq_refl "" eq_refl). vm_compute in Hclaim. discriminate.
  - specialize (Hclaim eq_refl "resolved" eq_refl). vm_compute in Hclaim. discriminate.
Qed.

Lemma list_issues_query_parameter_witness :
  (exists r out,
      callTool (H := WhatwgURL) "acme" upstream_ok "list_sentry_issues"
        (list_issues_args [("project_slug", "web"); ("status", "unresolved")]) []
      = ([r], out) /\
      params r !! "query" = Some "is:unresolved") /\
  (exists r out,
      callTool (H := WhatwgURL) "acme" upstream_ok "list_sentry_issues"
        (list_issues_args [("project_slug", "web"); ("query", "environment:prod");
                           ("status", "resolved")]) []
      = ([r], out) /\
      params r !! "query" = Some "environment:prod is:resolved").
Proof.
  split.
  - destruct (list_issues_query_parameter (H := WhatwgURL) "acme" upstream_ok
                (list_issues_args [("project_slug", "web"); ("status", "unresolved")])
                [] "unresolved" eq_refl eq_refl ltac:(discriminate))
      as (r & out & Hcall & _ & _ & Hnoquery & _).
    exists r, out. split; [exact Hcall|]. apply Hnoquery. by left.
  - destruct (list_issues_query_parameter (H := WhatwgURL) "acme" upstream_ok
                (list_issues_args [("project_slug", "web"); ("query", "environment:prod");
                                   ("status", "resolved")])
                [] "resolved" eq_refl eq_refl ltac:(discriminate))
      as (r & out & Hcall & _ & _ & _ & Hquery).
    exists r, out. split; [exact Hcall|].
    apply (Hquery "environment:prod"); [reflexivity|discriminate].
Defined.

(** * Further properties of the code *)

(** ** The normalizer *)

Section NormalizerProperties.
Context `{URLPlatform}.

Lemma getIssueId_Some_digits input d :
  getIssueId input = Some d -> test_digits d = true.
Proof.
  destruct (URL_pathname input) as [pathname|] eqn:Hurl.
  - destruct (getIssueId_url input pathname Hurl)
      as [[-> _]|(k & _ & _ & ->)]; [done|].
    destruct (split pathname !! S k) as [p|]; [|done].
    destruct (test_digits p) eqn:Hp; [|done]. by intros [= <-].
  - rewrite getIssueId_not_url by done.
    destruct (test_digits input) eqn:Hd; [|done]. by intros [= <-].
Qed.

Lemma getIssueId_digits d : test_digits d = true -> getIssueId d = Some d.
Proof.
  intros Hd. rewrite getIssueId_not_url, Hd; [done|].
  destruct (URL_pathname d) as [p|] eqn:Hurl; [|done].
  apply URL_needs_scheme in Hurl. rewrite (digits_no_scheme _ Hd) in Hurl.
  discriminate.
Qed.

(** X1: Normalizing is idempotent: an identifier that [getIssueId] extracted
    from any reference is itself a reference to the same identifier. *)
Theorem getIssueId_idempotent input d :
  getIssueId input = Some d -> getIssueId d = Some d.
Proof. intros Hd%getIssueId_Some_digits. by apply getIssueId_digits. Qed.

(** X2: On an input that parses as a URL, [getIssueId] returns [d] exactly when
    the first path segment equal to ["issues"] is followed by the all-digit
    segment [d]; the rest of the URL (host, later segments, query, fragment)
    plays no part. *)
Theorem getIssueId_url_iff input pathname d :
  URL_pathname input = Some pathname ->
  getIssueId input = Some d <->
  exists k : nat,
    split pathname !! k = Some "issues" /\
    (forall j : nat, (j < k)%nat -> split pathname !! j <> Some "issues") /\
    split pathname !! S k = Some d /\
    test_digits d = true.
Proof.
  intros Hurl.
  destruct (getIssueId_url input pathname Hurl)
    as [[-> Hno]|(k & Hk & Hfirst & ->)].
  - split; [done|]. intros (k & Hk & _). by destruct (Hno k).
  - split.
    + destruct (split pathname !! S k) as [p|] eqn:Hnext; [|done].
      destruct (test_digits p) eqn:Hp; [|done]. intros [= <-]. by exists k.
    + intros (k' & Hk' & Hfirst' & Hnext & Hd).
      assert (k' = k) as ->.
      { destruct (Nat.lt_trichotomy k' k) as [Hlt|[Heq|Hgt]]; [|done|].
        - by destruct (Hfirst k' Hlt).
        - by destruct (Hfirst' k Hgt). }
      by rewrite Hnext, Hd.
Qed.

End NormalizerProperties.

Lemma getIssueId_idempotent_witness :
  getIssueId (H := WhatwgURL) "12345" = Some "12345".
Proof.
  apply (getIssueId_idempotent (H := WhatwgURL)
           "https://sentry.example.com/organizations/acme/issues/12345/events/latest/").
  reflexivity.
Defined.

Lemma getIssueId_url_iff_witness :
  exists k : nat,
    split "/organizations/acme/issues/12345/" !! k = Some "issues" /\
    (forall j : nat, (j < k)%nat ->
                     split "/organizations/acme/issues/12345/" !! j <> Some "issues") /\
    split "/organizations/acme/issues/12345/" !! S k = Some "12345" /\
    test_digits "12345" = true.
Proof.
  apply (getIssueId_url_iff (H := WhatwgURL)
           "https://sentry.example.com/organizations/acme/issues/12345/"
           "/organizations/acme/issues/12345/" "12345"); reflexivity.
Defined.

(** ** The validators and the declared schemas *)

(** Cases on the tool a validator belongs to. *)
Ltac validator_cases Hv :=
  unfold validator_of in Hv;
  repeat match type of Hv with
  | context [String.eqb ?t ?s] => destruct (String.eqb_spec t s) as [->|?]
  end; try discriminate; injection Hv as <-.

(** The registry entry of a literal tool name. *)
Ltac registry_entry Ht := vm_compute in Ht; injection Ht as <-.

Section ValidatorProperties.

(** X3: Every validator rejects what is not a plain object: [undefined],
    [null], a boolean, a number, a string and also an array, which passes
    [typeof args === 'object'] and fails on the required property. *)
Theorem validators_reject_non_objects toolName validate args :
  validator_of toolName = Some validate ->
  (forall fields, args <> Some (JObject fields)) ->
  validate args = false.
Proof.
  intros Hv Hnot. validator_cases Hv;
    destruct args as [[| | | | |fields]|]; try reflexivity;
    by destruct (Hnot fields).
Qed.

(** X4: A validator reads only the properties its tool declares: two bags that
    agree on them are both accepted or both rejected, whatever else they
    hold. *)
Theorem validators_ignore_other_fields toolName tool validate fields1 fields2 :
  validator_of toolName = Some validate ->
  tool_named toolName = Some tool ->
  (forall p, p ∈ properties tool ->
             lookup_field (prop_name p) fields1 = lookup_field (prop_name p) fields2) ->
  validate (Some (JObject fields1)) = validate (Some (JObject fields2)).
Proof.
  intros Hv Ht Hagree. validator_cases Hv; registry_entry Ht;
    cbn [properties] in Hagree;
    repeat match goal with
    | Hagree : forall p, p ∈ ?q :: ?rest -> _ |- _ =>
        let Hq := fresh "Hq" in
        pose proof (Hagree q (list_elem_of_here _ _)) as Hq;
        cbn [prop_name string_prop] in Hq;
        assert (forall p, p ∈ rest ->
                          lookup_field (prop_name p) fields1
                          = lookup_field (prop_name p) fields2)
          by (intros p' Hp'; apply Hagree; by apply list_elem_of_further);
        clear Hagree
    end.
  all: unfold isValidGetIssueArgs, isValidListIssuesArgs, isValidGetEventArgs,
         isValidUpdateIssueArgs, isValidCreateCommentArgs; cbn [prop is_object typeof is_null].
  all: repeat match goal with
       | Hq : lookup_field _ _ = lookup_field _ _ |- _ => rewrite Hq; clear Hq
       end.
  all: reflexivity.
Qed.

(** X5: An accepted bag holds every property its tool's schema requires, as a
    string. *)
Theorem validators_check_required toolName tool validate args key :
  validator_of toolName = Some validate ->
  tool_named toolName = Some tool ->
  validate args = true ->
  key ∈ required tool ->
  exists s, prop args key = Some (JString s).
Proof.
  intros Hv Ht Hvalid Hkey. validator_cases Hv; registry_entry Ht;
    cbn [required] in Hkey;
    unfold isValidGetIssueArgs, isValidListIssuesArgs, isValidGetEventArgs,
      isValidUpdateIssueArgs, isValidCreateCommentArgs in Hvalid;
    repeat apply andb_prop in Hvalid as [Hvalid ?];
    repeat match goal with
    | Hb : bool_decide (typeof ?v = TyString) = true |- _ =>
        apply bool_decide_eq_true in Hb;
        let s := fresh "s" in destruct v as [[| | |s| |]|] eqn:?; try discriminate;
        clear Hb
    end;
    apply list_elem_of_In in Hkey; simpl in Hkey;
    repeat destruct Hkey as [<-|Hkey]; try done; eauto.
Qed.

End ValidatorProperties.

Section SchemaProperties.

(** Destructs every property read from the bag. *)
Ltac read_fields fields :=
  repeat match goal with
  | |- context [lookup_field ?k fields] =>
      destruct (lookup_field k fields) as [[| | |?| |]|]
  end.

(** X6: The validators against the declared schemas: a bag that conforms to a
    tool's schema is accepted by the tool's validator, and for every tool
    but [list_sentry_issues] the validator accepts exactly the conforming
    bags. *)
Theorem validators_implement_schema toolName tool validate args :
  validator_of toolName = Some validate ->
  tool_named toolName = Some tool ->
  (conforms tool args = true -> validate args = true) /\
  (toolName <> "list_sentry_issues" -> validate args = conforms tool args).
Proof.
  intros Hv Ht. validator_cases Hv; registry_entry Ht;
    (destruct args as [[| | | | |fields]|]; [by split..| |by split]);
    unfold isValidGetIssueArgs, isValidListIssuesArgs, isValidGetEventArgs,
      isValidUpdateIssueArgs, isValidCreateCommentArgs, conforms, property_conforms;
    cbn [properties required prop prop_name prop_type prop_enum string_prop forallb];
    read_fields fields; cbn; split; try done;
    rewrite ?andb_true_r; try done.
  all: try by intros [Hs _]%andb_prop.
Qed.

End SchemaProperties.

Lemma validators_reject_non_objects_witness :
  isValidGetIssueArgs (Some (JArray [JString "12345"])) = false /\
  isValidUpdateIssueArgs (Some JNull) = false /\
  isValidListIssuesArgs None = false.
Proof.
  split; [|split].
  - apply (validators_reject_non_objects "get_sentry_issue"); [reflexivity|discriminate].
  - apply (validators_reject_non_objects "update_sentry_issue_status");
      [reflexivity|discriminate].
  - apply (validators_reject_non_objects "list_sentry_issues"); [reflexivity|discriminate].
Defined.

Lemma validators_ignore_other_fields_witness :
  isValidGetIssueArgs (Some (JObject [("issue_id_or_url", JString "1")])) =
  isValidGetIssueArgs
    (Some (JObject [("verbose", JBool true); ("issue_id_or_url", JString "1")])).
Proof.
  apply (validators_ignore_other_fields "get_sentry_issue"
           {| name := "get_sentry_issue";
              properties := [string_prop "issue_id_or_url"];
              required := ["issue_id_or_url"] |});
    [reflexivity|reflexivity|].
  intros p Hp. apply list_elem_of_In in Hp. simpl in Hp.
  destruct Hp as [<-|[]]. reflexivity.
Defined.

Lemma validators_check_required_witness :
  exists s,
    prop (Some (JObject [("issue_id", JString "7"); ("status", JString "resolved")]))
      "status" = Some (JString s).
Proof.
  apply (validators_check_required "update_sentry_issue_status"
           {| name := "update_sentry_issue_status";
              properties :=
                [string_prop "issue_id";
                 {| prop_name := "status"; prop_type := "string";
                    prop_enum := Some ["resolved"; "ignored"; "unresolved"] |}];
              required := ["issue_id"; "status"] |}
           isValidUpdateIssueArgs);
    [reflexivity|reflexivity|reflexivity|].
  apply list_elem_of_In. simpl. tauto.
Defined.

Lemma validators_implement_schema_witness :
  isValidGetEventArgs
    (Some (JObject [("project_slug", JString "web"); ("event_id", JString "ab12")]))
  = true.
Proof.
  apply (proj1 (validators_implement_schema "get_sentry_event_details"
                  {| name := "get_sentry_event_details";
                     properties := [string_prop "project_slug"; string_prop "event_id"];
                     required := ["project_slug"; "event_id"] |}
                  isValidGetEventArgs _ eq_refl eq_refl)).
  reflexivity.
Defined.

(** ** The dispatcher *)

Section DispatcherProperties.
Context `{URLPlatform}.
Variable ORG_SLUG : string.

(** What a call does before the upstream answers depends on the tool name
    and the bag only: it is a protocol error, or one request. *)
Lemma run_tool_plan toolName args :
  exists plan : ErrorCode * string + Request,
    forall upstream log,
      run_tool ORG_SLUG upstream toolName args log =
      match plan with
      | inl (code, message) => (log, Threw (McpError code message))
      | inr r =>
          ((log ++ [r])%list,
           match upstream r with
           | inr response_data => Returned (success response_data)
           | inl rejection => Threw (Rejected rejection)
           end)
      end.
Proof.
  unfold run_tool.
  repeat case_match;
    try (eexists (inl (_, _)); intros; reflexivity);
    eexists (inr _); intros; apply call_then_success.
Qed.

Lemma callTool_plan toolName args :
  exists plan : ErrorCode * string + Request,
    forall upstream log,
      callTool ORG_SLUG upstream toolName args log =
      match plan with
      | inl (code, message) => (log, Threw (McpError code message))
      | inr r =>
          ((log ++ [r])%list,
           match upstream r with
           | inr response_data => Returned (success response_data)
           | inl rejection => Returned (failure (rejection_text toolName rejection))
           end)
      end.
Proof.
  destruct (run_tool_plan toolName args) as [[[code message]|r] Hplan].
  - exists (inl (code, message)). intros upstream log.
    unfold callTool, try_catch. by rewrite Hplan.
  - exists (inr r). intros upstream log.
    unfold callTool, try_catch. rewrite Hplan.
    destruct (upstream r); [by rewrite on_error_rejected|done].
Qed.

(** X7: A call ends in one of two ways: a protocol error thrown with no request
    issued, or exactly one request issued and an envelope returned.  It never
    throws after contacting the upstream, never throws anything but a
    protocol error, and never issues two requests. *)
Theorem callTool_outcome upstream toolName args log :
  (exists code message,
      callTool ORG_SLUG upstream toolName args log
      = (log, Threw (McpError code message))) \/
  (exists r envelope,
      callTool ORG_SLUG upstream toolName args log
      = ((log ++ [r])%list, Returned envelope)).
Proof.
  destruct (callTool_plan toolName args) as [[[code message]|r] Hplan];
    rewrite Hplan.
  - left. by exists code, message.
  - right. exists r. destruct (upstream r); by eexists.
Qed.

(** X8: Every returned envelope has exactly one content item, of type [text].
    [isError] is absent exactly when the upstream resolved the request, and
    the text is then the pretty-printed response body; it is [true] exactly
    when the upstream rejected it. *)
Theorem callTool_envelope upstream toolName args log log' envelope :
  callTool ORG_SLUG upstream toolName args log = (log', Returned envelope) ->
  exists r message,
    log' = (log ++ [r])%list /\
    content envelope = [{| type := "text"; text := message |}] /\
    ((isError envelope = None /\
      exists response_data,
        upstream r = inr response_data /\ message = JSON.stringify response_data 2) \/
     (isError envelope = Some true /\ exists rejection, upstream r = inl rejection)).
Proof.
  destruct (callTool_plan toolName args) as [[[code message]|r] Hplan];
    rewrite Hplan; [done|].
  destruct (upstream r) as [rejection|response_data] eqn:Hup; intros [= <- <-].
  - exists r, (rejection_text toolName rejection). split; [done|]. split; [done|].
    right. split; [done|]. by exists rejection.
  - exists r, (JSON.stringify response_data 2). split; [done|]. split; [done|].
    left. split; [done|]. by exists response_data.
Qed.

(** X9: Which request is issued, and whether the call ends in a protocol error,
    is decided by the tool name and the arguments alone: two upstreams see
    the same request log after the same call. *)
Theorem callTool_request_independent upstream1 upstream2 toolName args log :
  fst (callTool ORG_SLUG upstream1 toolName args log)
  = fst (callTool ORG_SLUG upstream2 toolName args log).
Proof.
  destruct (callTool_plan toolName args) as [[[code message]|r] Hplan];
    by rewrite !Hplan.
Qed.

End DispatcherProperties.

(** ** The routes of the dispatcher *)

Section Routes.
Context `{URLPlatform}.
Variable ORG_SLUG : string.
Variable upstream : Request -> Rejection + json.

(** The branch of the try block taken for each registered tool. *)

Lemma run_get_sentry_issue args :
  run_tool ORG_SLUG upstream "get_sentry_issue" args =
  if negb (isValidGetIssueArgs args)
  then throw (McpError InvalidParams "Invalid args for get_sentry_issue.")
  else
    match getIssueId (as_string (prop args "issue_id_or_url")) with
    | Some (String c r as issueId) =>
        let* response_data := axios_get upstream ("issues/" ++ issueId ++ "/") ∅ in
        ret (success response_data)
    | _ =>
        throw (McpError InvalidParams
                 ("Could not extract issue ID from: "
                  ++ as_string (prop args "issue_id_or_url")))
    end.
Proof. reflexivity. Qed.

Lemma run_list_sentry_projects args :
  run_tool ORG_SLUG upstream "list_sentry_projects" args =
  let* response_data :=
    axios_get upstream ("organizations/" ++ ORG_SLUG ++ "/projects/") ∅ in
  ret (success response_data).
Proof. reflexivity. Qed.

Lemma run_list_sentry_issues args :
  run_tool ORG_SLUG upstream "list_sentry_issues" args =
  if negb (isValidListIssuesArgs args)
  then throw (McpError InvalidParams "Invalid args for list_sentry_issues.")
  else
    let* response_data :=
      axios_get upstream
        ("projects/" ++ ORG_SLUG ++ "/" ++ as_string (prop args "project_slug")
         ++ "/issues/")
        (list_issues_params args) in
    ret (success response_data).
Proof. reflexivity. Qed.

Lemma run_get_sentry_event_details args :
  run_tool ORG_SLUG upstream "get_sentry_event_details" args =
  if negb (isValidGetEventArgs args)
  then throw (McpError InvalidParams "Invalid args for get_sentry_event_details.")
  else
    let* response_data :=
      axios_get upstream
        ("projects/" ++ ORG_SLUG ++ "/" ++ as_string (prop args "project_slug")
         ++ "/events/" ++ as_string (prop args "event_id") ++ "/") ∅ in
    ret (success response_data).
Proof. reflexivity. Qed.

Lemma run_update_sentry_issue_status args :
  run_tool ORG_SLUG upstream "update_sentry_issue_status" args =
  if negb (isValidUpdateIssueArgs args)
  then throw (McpError InvalidParams "Invalid args for update_sentry_issue_status.")
  else
    let* response_data :=
      axios_put upstream ("issues/" ++ as_string (prop args "issue_id") ++ "/")
        (object1 "status" (prop args "status")) in
    ret (success response_data).
Proof. reflexivity. Qed.

Lemma run_create_sentry_issue_comment args :
  run_tool ORG_SLUG upstream "create_sentry_issue_comment" args =
  if negb (isValidCreateCommentArgs args)
  then throw (McpError InvalidParams "Invalid args for create_sentry_issue_comment.")
  else
    let* response_data :=
      axios_post upstream ("issues/" ++ as_string (prop args "issue_id") ++ "/comments/")
        (object1 "text" (prop args "comment_text")) in
    ret (success response_data).
Proof. reflexivity. Qed.

Lemma run_unknown_tool toolName args :
  toolName ∉ List.map name tools ->
  run_tool ORG_SLUG upstream toolName args =
  throw (McpError MethodNotFound ("Unknown tool: " ++ toolName)).
Proof.
  intros Hnot. unfold run_tool.
  repeat match goal with
  | |- context [String.eqb toolName ?s] =>
      destruct (String.eqb_spec toolName s) as [->|_];
        [destruct Hnot; apply list_elem_of_In; simpl; tauto|]
  end.
  reflexivity.
Qed.

(** The request a call issued, read back from the log. *)
Lemma issued_request toolName args log r out :
  callTool ORG_SLUG upstream toolName args log = ((log ++ [r])%list, out) ->
  exists out', run_tool ORG_SLUG upstream toolName args log = ((log ++ [r])%list, out').
Proof.
  unfold callTool, try_catch.
  destruct (run_tool_cases ORG_SLUG upstream toolName args log)
    as [(code & message & ->)|(r' & ->)].
  - intros [= Hlog _]. by destruct (log_grows log r).
  - intros Hcall. exists (match upstream r with
                          | inr response_data => Returned (success response_data)
                          | inl rejection => Threw (Rejected rejection)
                          end).
    assert (r' = r) as ->; [|done].
    destruct (upstream r'); [rewrite on_error_rejected in Hcall|];
      injection Hcall as Hlog _; by apply app_inv_head in Hlog as [= ->].
Qed.

(** Reads the request off an equation of the try block. *)
Ltac read_request Hrun :=
  let Hlog := fresh "Hlog" in
  cbn [negb] in Hrun; unfold throw in Hrun;
  try rewrite call_then_success in Hrun;
  injection Hrun as Hlog _;
  first [ by destruct (log_grows _ _ Hlog)
        | apply app_inv_head in Hlog as [= <-] ].

(** X10: The dispatcher and the registry know the same tools: a call ends in
    [MethodNotFound] exactly when the name is not in the listing answered to
    [ListTools]. *)
Theorem method_not_found_iff_unregistered toolName args log :
  (exists message,
      snd (callTool ORG_SLUG upstream toolName args log)
      = Threw (McpError MethodNotFound message)) <->
  toolName ∉ List.map name tools.
Proof.
  split.
  - intros [message Hthrow] Hin. apply list_elem_of_In in Hin. simpl in Hin.
    destruct (callTool_cases ORG_SLUG upstream toolName args log)
      as [(code & message' & Hcall & Hrun)|(r & Hcall)];
      rewrite Hcall in Hthrow; simpl in Hthrow;
      [|by destruct (upstream r)].
    injection Hthrow as -> ->. clear Hcall.
    repeat destruct Hin as [<-|Hin]; try done;
      rewrite ?run_get_sentry_issue, ?run_list_sentry_projects,
        ?run_list_sentry_issues, ?run_get_sentry_event_details,
        ?run_update_sentry_issue_status, ?run_create_sentry_issue_comment in Hrun;
      unfold axios_get, axios_put, axios_post in Hrun;
      repeat case_match; rewrite ?call_then_success in Hrun;
      unfold throw in Hrun; try discriminate;
      injection Hrun as Hlog _; symmetry in Hlog; by destruct (log_grows _ _ Hlog).
  - intros Hnot. exists ("Unknown tool: " ++ toolName).
    unfold callTool, try_catch. by rewrite run_unknown_tool.
Qed.

(** X11: [get_sentry_issue] only ever requests [issues/{digits}/]: whatever
    reference the caller passes, the path sent upstream is built from the
    all-digit identifier the normalizer extracted from it, by GET, with no
    query parameters and no body. *)
Theorem get_sentry_issue_request args log r out :
  callTool ORG_SLUG upstream "get_sentry_issue" args log = ((log ++ [r])%list, out) ->
  exists issueId,
    getIssueId (as_string (prop args "issue_id_or_url")) = Some issueId /\
    test_digits issueId = true /\
    r = {| method := GET; url := "issues/" ++ issueId ++ "/"; params := ∅; data := None |}.
Proof.
  intros [out' Hrun]%issued_request.
  rewrite run_get_sentry_issue in Hrun. unfold axios_get in Hrun.
  destruct (negb (isValidGetIssueArgs args)); [read_request Hrun|].
  destruct (getIssueId (as_string (prop args "issue_id_or_url")))
    as [[|c s]|] eqn:Hid; read_request Hrun.
  exists (String c s). split; [done|]. split; [|done].
  by apply getIssueId_Some_digits in Hid.
Qed.

(** X12: [list_sentry_projects] does not look at its arguments: any bag, even
    [undefined] or a non-object, gives the same request
    [GET organizations/{org}/projects/] and the same outcome. *)
Theorem list_sentry_projects_ignores_arguments args args' log :
  callTool ORG_SLUG upstream "list_sentry_projects" args log
  = callTool ORG_SLUG upstream "list_sentry_projects" args' log /\
  fst (callTool ORG_SLUG upstream "list_sentry_projects" args log)
  = (log ++ [{| method := GET; url := "organizations/" ++ ORG_SLUG ++ "/projects/";
                params := ∅; data := None |}])%list.
Proof.
  unfold callTool, try_catch. rewrite !run_list_sentry_projects.
  unfold axios_get. rewrite call_then_success. split; [done|].
  destruct (upstream _); [by rewrite on_error_rejected|done].
Qed.

(** X13: The request of [list_sentry_issues]: a GET on the project's issues with
    no body and no query parameter other than [query]; without a status (or
    with an empty one) a non-empty query is passed on unchanged and an absent
    or empty query sends no parameter at all. *)
Theorem list_sentry_issues_request args log r out :
  callTool ORG_SLUG upstream "list_sentry_issues" args log = ((log ++ [r])%list, out) ->
  method r = GET /\
  url r = "projects/" ++ ORG_SLUG ++ "/" ++ as_string (prop args "project_slug")
          ++ "/issues/" /\
  data r = None /\
  (forall key, key <> "query" -> params r !! key = None) /\
  (prop args "status" = None \/ prop args "status" = Some (JString EmptyString) ->
   (forall query, prop args "query" = Some (JString query) -> query <> EmptyString ->
                  params r !! "query" = Some query) /\
   (prop args "query" = None \/ prop args "query" = Some (JString EmptyString) ->
    params r !! "query" = None)).
Proof.
  intros [out' Hrun]%issued_request.
  rewrite run_list_sentry_issues in Hrun. unfold axios_get in Hrun.
  destruct (negb (isValidListIssuesArgs args)); read_request Hrun.
  cbn [method url data params]. split; [done|]. split; [done|]. split; [done|].
  unfold list_issues_params. split.
  - intros key Hkey. repeat case_match;
      rewrite ?lookup_insert_ne, ?lookup_empty by done; done.
  - intros Hstatus.
    assert (truthy (prop args "status") = false) as ->
      by (by destruct Hstatus as [-> | ->]).
    split.
    + intros query -> Hq. cbn.
      destruct (String.eqb_spec query EmptyString); [done|]. cbn.
      by rewrite lookup_insert_eq.
    + by intros [-> | ->].
Qed.

(** X14: The request of [get_sentry_event_details]: both identifiers are strings
    of the bag, put into the path as they are. *)
Theorem get_sentry_event_details_request args log r out :
  callTool ORG_SLUG upstream "get_sentry_event_details" args log
  = ((log ++ [r])%list, out) ->
  exists project_slug event_id,
    prop args "project_slug" = Some (JString project_slug) /\
    prop args "event_id" = Some (JString event_id) /\
    r = {| method := GET;
           url := "projects/" ++ ORG_SLUG ++ "/" ++ project_slug ++ "/events/"
                  ++ event_id ++ "/";
           params := ∅; data := None |}.
Proof.
  intros [out' Hrun]%issued_request.
  rewrite run_get_sentry_event_details in Hrun. unfold axios_get in Hrun.
  destruct (isValidGetEventArgs args) eqn:Hvalid; read_request Hrun.
  unfold isValidGetEventArgs in Hvalid.
  apply andb_prop in Hvalid as [[_ Hslug%bool_decide_eq_true]%andb_prop
                                  Hevent%bool_decide_eq_true].
  destruct (prop args "project_slug") as [[| | |project_slug| |]|]; try done.
  destruct (prop args "event_id") as [[| | |event_id| |]|]; try done.
  by exists project_slug, event_id.
Qed.

(** X15: The request of [update_sentry_issue_status]: a PUT whose body is
    [{status}] with a status of the enumeration, so no other status can reach
    the upstream through this tool; the issue identifier is the string of the
    bag as it is (it is not normalized). *)
Theorem update_sentry_issue_status_request args log r out :
  callTool ORG_SLUG upstream "update_sentry_issue_status" args log
  = ((log ++ [r])%list, out) ->
  exists issue_id new_status,
    prop args "issue_id" = Some (JString issue_id) /\
    prop args "status" = Some (JString new_status) /\
    new_status ∈ ["resolved"; "ignored"; "unresolved"] /\
    r = {| method := PUT; url := "issues/" ++ issue_id ++ "/"; params := ∅;
           data := Some (JObject [("status", JString new_status)]) |}.
Proof.
  intros [out' Hrun]%issued_request.
  rewrite run_update_sentry_issue_status in Hrun. unfold axios_put in Hrun.
  destruct (isValidUpdateIssueArgs args) eqn:Hvalid; read_request Hrun.
  unfold isValidUpdateIssueArgs, includes in Hvalid.
  apply andb_prop in Hvalid as [[[_ Hid%bool_decide_eq_true]%andb_prop _]%andb_prop Hin].
  destruct (prop args "issue_id") as [[| | |issue_id| |]|]; try done.
  destruct (prop args "status") as [[| | |new_status| |]|]; try done.
  exists issue_id, new_status. split; [done|]. split; [done|]. split; [|done].
  apply list_elem_of_In.
  by apply existsb_exists in Hin as (x & Hx & ->%String.eqb_eq).
Qed.

(** X16: The request of [create_sentry_issue_comment]: a POST whose body is
    [{text}] with the comment text of the bag, unchanged. *)
Theorem create_sentry_issue_comment_request args log r out :
  callTool ORG_SLUG upstream "create_sentry_issue_comment" args log
  = ((log ++ [r])%list, out) ->
  exists issue_id comment_text,
    prop args "issue_id" = Some (JString issue_id) /\
    prop args "comment_text" = Some (JString comment_text) /\
    r = {| method := POST; url := "issues/" ++ issue_id ++ "/comments/"; params := ∅;
           data := Some (JObject [("text", JString comment_text)]) |}.
Proof.
  intros [out' Hrun]%issued_request.
  rewrite run_create_sentry_issue_comment in Hrun. unfold axios_post in Hrun.
  destruct (isValidCreateCommentArgs args) eqn:Hvalid; read_request Hrun.
  unfold isValidCreateCommentArgs in Hvalid.
  apply andb_prop in Hvalid as [[_ Hid%bool_decide_eq_true]%andb_prop
                                  Htext%bool_decide_eq_true].
  destruct (prop args "issue_id") as [[| | |issue_id| |]|]; try done.
  destruct (prop args "comment_text") as [[| | |comment_text| |]|]; try done.
  by exists issue_id, comment_text.
Qed.

(** X17: Only the two write tools write: a request issued for any other tool is
    a GET without body. *)
Theorem read_tools_only_get toolName args log r out :
  callTool ORG_SLUG upstream toolName args log = ((log ++ [r])%list, out) ->
  toolName <> "update_sentry_issue_status" ->
  toolName <> "create_sentry_issue_comment" ->
  method r = GET /\ data r = None.
Proof.
  intros [out' Hrun]%issued_request Hupdate Hcomment.
  destruct (decide (toolName ∈ List.map name tools)) as [Hin|Hnot].
  - apply list_elem_of_In in Hin. simpl in Hin.
    repeat destruct Hin as [<-|Hin]; try done;
      rewrite ?run_get_sentry_issue, ?run_list_sentry_projects,
        ?run_list_sentry_issues, ?run_get_sentry_event_details in Hrun;
      unfold axios_get in Hrun; repeat case_match; by read_request Hrun.
  - rewrite run_unknown_tool in Hrun by done. read_request Hrun.
Qed.

(** X18: Failures that carry no HTTP response: a transport error (an axios error
    without response) gives the text [Sentry API error for {tool}:
    {message}], any other error its own message, a thrown value that is not
    an error the text [Failed to execute tool {tool}.]; each in an envelope
    with [isError: true]. *)
Theorem failure_without_response toolName args log r out :
  callTool ORG_SLUG upstream toolName args log = ((log ++ [r])%list, out) ->
  (forall message,
      upstream r = inl (AxiosError message None) ->
      out = Returned (failure ("Sentry API error for " ++ toolName ++ ": " ++ message))) /\
  (forall message,
      upstream r = inl (JsError message) -> out = Returned (failure message)) /\
  (upstream r = inl ThrownValue ->
   out = Returned (failure ("Failed to execute tool " ++ toolName ++ "."))).
Proof.
  intros Hcall%callTool_issued.
  split; [|split]; [intros message Hup..|intros Hup]; by rewrite Hup in Hcall.
Qed.

End Routes.

Lemma callTool_envelope_witness :
  exists r message,
    [get_issue_request "1"] = ([] ++ [r])%list /\
    content (failure "Sentry resource not found for get_sentry_issue. Check IDs/slugs.")
    = [{| type := "text"; text := message |}] /\
    ((isError (failure "Sentry resource not found for get_sentry_issue. Check IDs/slugs.")
      = None /\
      exists response_data,
        upstream_404 r = inr response_data /\
        message = JSON.stringify response_data 2) \/
     (isError (failure "Sentry resource not found for get_sentry_issue. Check IDs/slugs.")
      = Some true /\
      exists rejection, upstream_404 r = inl rejection)).
Proof.
  apply (callTool_envelope (H := WhatwgURL) "acme" upstream_404 "get_sentry_issue"
           (get_issue_args "1") []).
  reflexivity.
Defined.

Lemma get_sentry_issue_request_witness :
  exists issueId,
    getIssueId (H := WhatwgURL)
      (as_string (prop (get_issue_args "https://sentry.example.com/issues/42/")
                       "issue_id_or_url")) = Some issueId /\
    test_digits issueId = true /\
    get_issue_request "42"
    = {| method := GET; url := "issues/" ++ issueId ++ "/"; params := ∅; data := None |}.
Proof.
  apply (get_sentry_issue_request (H := WhatwgURL) "acme" upstream_ok
           (get_issue_args "https://sentry.example.com/issues/42/") []
           (get_issue_request "42") (Returned (success issue_body))).
  reflexivity.
Defined.

Lemma list_sentry_issues_request_witness :
  params {| method := GET; url := "projects/acme/web/issues/";
            params := {["query" := "environment:prod"]}; data := None |}
    !! "query" = Some "environment:prod".
Proof.
  destruct (list_sentry_issues_request (H := WhatwgURL) "acme" upstream_ok
              (list_issues_args [("project_slug", "web"); ("query", "environment:prod")])
              [] _ (Returned (success issue_body)) eq_refl)
    as (_ & _ & _ & _ & Hquery).
  destruct (Hquery (or_introl eq_refl)) as [Hgiven _].
  apply (Hgiven "environment:prod"); [reflexivity|discriminate].
Defined.

Lemma get_sentry_event_details_request_witness :
  exists project_slug event_id,
    prop (list_issues_args [("project_slug", "web"); ("event_id", "ab12")]) "project_slug"
    = Some (JString project_slug) /\
    prop (list_issues_args [("project_slug", "web"); ("event_id", "ab12")]) "event_id"
    = Some (JString event_id) /\
    {| method := GET; url := "projects/acme/web/events/ab12/"; params := ∅; data := None |}
    = {| method := GET;
         url := "projects/" ++ "acme" ++ "/" ++ project_slug ++ "/events/" ++ event_id ++ "/";
         params := ∅; data := None |}.
Proof.
  apply (get_sentry_event_details_request (H := WhatwgURL) "acme" upstream_ok
           (list_issues_args [("project_slug", "web"); ("event_id", "ab12")]) []
           _ (Returned (success issue_body))).
  reflexivity.
Defined.

Lemma update_sentry_issue_status_request_witness :
  exists issue_id new_status,
    prop (list_issues_args [("issue_id", "7"); ("status", "resolved")]) "issue_id"
    = Some (JString issue_id) /\
    prop (list_issues_args [("issue_id", "7"); ("status", "resolved")]) "status"
    = Some (JString new_status) /\
    new_status ∈ ["resolved"; "ignored"; "unresolved"] /\
    {| method := PUT; url := "issues/7/"; params := ∅;
       data := Some (JObject [("status", JString "resolved")]) |}
    = {| method := PUT; url := "issues/" ++ issue_id ++ "/"; params := ∅;
         data := Some (JObject [("status", JString new_status)]) |}.
Proof.
  apply (update_sentry_issue_status_request (H := WhatwgURL) "acme" upstream_ok
           (list_issues_args [("issue_id", "7"); ("status", "resolved")]) []
           _ (Returned (success issue_body))).
  reflexivity.
Defined.

Lemma create_sentry_issue_comment_request_witness :
  exists issue_id comment_text,
    prop (list_issues_args [("issue_id", "7"); ("comment_text", "seen in prod")]) "issue_id"
    = Some (JString issue_id) /\
    prop (list_issues_args [("issue_id", "7"); ("comment_text", "seen in prod")])
      "comment_text" = Some (JString comment_text) /\
    {| method := POST; url := "issues/7/comments/"; params := ∅;
       data := Some (JObject [("text", JString "seen in prod")]) |}
    = {| method := POST; url := "issues/" ++ issue_id ++ "/comments/"; params := ∅;
         data := Some (JObject [("text", JString comment_text)]) |}.
Proof.
  apply (create_sentry_issue_comment_request (H := WhatwgURL) "acme" upstream_ok
           (list_issues_args [("issue_id", "7"); ("comment_text", "seen in prod")]) []
           _ (Returned (success issue_body))).
  reflexivity.
Defined.

Lemma read_tools_only_get_witness :
  method (get_issue_request "1") = GET /\ data (get_issue_request "1") = None.
Proof.
  apply (read_tools_only_get (H := WhatwgURL) "acme" upstream_ok "get_sentry_issue"
           (get_issue_args "1") [] _ (Returned (success issue_body)));
    [reflexivity|discriminate|discriminate].
Defined.

Lemma failure_without_response_witness :
  snd (callTool (H := WhatwgURL) "acme"
         (fun _ => inl (AxiosError "timeout of 20000ms exceeded" None))
         "list_sentry_projects" None [])
  = Returned (failure "Sentry API error for list_sentry_projects: timeout of 20000ms exceeded").
Proof.
  apply (proj1 (failure_without_response (H := WhatwgURL) "acme"
                  (fun _ => inl (AxiosError "timeout of 20000ms exceeded" None))
                  "list_sentry_projects" None []
                  {| method := GET; url := "organizations/acme/projects/";
                     params := ∅; data := None |} _ eq_refl)).
  reflexivity.
Defined.

(** ** Configuration resolution and start-up *)

(** X19: Appending one slash to a configured URL does not change the base URL
    of one that has none: [SENTRY_BASE_URL] undoes it. *)
Theorem SENTRY_BASE_URL_append_slash SENTRY_URL :
  SENTRY_BASE_URL (SENTRY_URL ++ "/") = SENTRY_URL.
Proof.
  unfold SENTRY_BASE_URL.
  assert (Str.endsWith (SENTRY_URL ++ "/") "/" = true) as ->
    by (apply endsWith_iff; by exists SENTRY_URL).
  apply slice_0_m1_app.
Qed.

Section StartupProperties.
Context `{URLPlatform}.

(** Two configurations that resolve the three settings alike start alike. *)
Lemma startup_resolve env1 rc1 env2 rc2 :
  (forall variable section key,
      (variable, (section, key)) ∈ settings ->
      resolve env1 rc1 variable section key = resolve env2 rc2 variable section key) ->
  startup env1 rc1 = startup env2 rc2.
Proof.
  intros Hsame. unfold startup.
  pose proof (Hsame "SENTRY_URL" "defaults" "url") as Hurl.
  pose proof (Hsame "SENTRY_AUTH_TOKEN" "auth" "token") as Htoken.
  pose proof (Hsame "SENTRY_ORG_SLUG" "defaults" "org") as Horg.
  unfold resolve in *.
  rewrite Hurl, Htoken, Horg; [done|unfold settings; set_solver..].
Qed.


(** X21: A variable set to the empty string counts as unset: the rc file is
    read for it, and the server starts as if the variable were absent. *)
Theorem startup_empty_variable_is_unset env rc variable :
  startup (<[variable := EmptyString]> env) rc = startup (delete variable env) rc.
Proof.
  apply startup_resolve. intros variable' section key _.
  unfold resolve, env_var.
  destruct (decide (variable = variable')) as [->|Hne].
  - by rewrite lookup_insert_eq, lookup_delete_eq.
  - by rewrite lookup_insert_ne, lookup_delete_ne.
Qed.

(** X22: Start-up reports the first setting that is missing, in the order URL,
    token, organization: [Missing v] is the outcome exactly when [v] is the
    first of the three that resolves to nothing (or to an empty or false
    value). *)
Theorem startup_missing_iff env rc variable :
  startup env rc = inl (Missing variable) <->
  exists before section key after,
    settings = (before ++ (variable, (section, key)) :: after)%list /\
    is_set (resolve env rc variable section key) = false /\
    forall variable' section' key',
      (variable', (section', key')) ∈ before ->
      is_set (resolve env rc variable' section' key') = true.
Proof.
  unfold startup. fold (resolve env rc "SENTRY_URL" "defaults" "url").
  fold (resolve env rc "SENTRY_AUTH_TOKEN" "auth" "token").
  fold (resolve env rc "SENTRY_ORG_SLUG" "defaults" "org").
  destruct (is_set (resolve env rc "SENTRY_URL" "defaults" "url")) eqn:Hurl;
    cbn [negb].
  2:{ split.
      - intros [= <-]. exists [], "defaults", "url", (tl settings).
        split; [done|]. split; [done|]. intros ??? Hin. inversion Hin.
      - intros ([|? before] & section & key & after & Hsplit & Hunset & Hbefore).
        + by injection Hsplit as <- <- <- _.
        + injection Hsplit as <- _.
          rewrite (Hbefore "SENTRY_URL" "defaults" "url") in Hurl; [done|].
          apply list_elem_of_here. }
  destruct (is_set (resolve env rc "SENTRY_AUTH_TOKEN" "auth" "token")) eqn:Htoken;
    cbn [negb].
  2:{ split.
      - intros [= <-].
        exists [("SENTRY_URL", ("defaults", "url"))], "auth", "token",
               [("SENTRY_ORG_SLUG", ("defaults", "org"))].
        split; [done|]. split; [done|]. by intros ??? [= -> -> ->]%list_elem_of_singleton.
      - intros ([|? [|? before]] & section & key & after & Hsplit & Hunset & Hbefore).
        + injection Hsplit as <- <- <- _. congruence.
        + by injection Hsplit as _ <- <- <- _.
        + injection Hsplit as _ <- _.
          rewrite (Hbefore "SENTRY_AUTH_TOKEN" "auth" "token") in Htoken; [done|].
          apply list_elem_of_further, list_elem_of_here. }
  destruct (is_set (resolve env rc "SENTRY_ORG_SLUG" "defaults" "org")) eqn:Horg;
    cbn [negb].
  2:{ split.
      - intros [= <-].
        exists [("SENTRY_URL", ("defaults", "url")); ("SENTRY_AUTH_TOKEN", ("auth", "token"))],
               "defaults", "org", [].
        split; [done|]. split; [done|].
        intros ??? [[= -> -> ->]|[= -> -> ->]%list_elem_of_singleton]%elem_of_cons;
          done.
      - intros ([|? [|? [|? before]]] & section & key & after & Hsplit & Hunset & Hbefore).
        + injection Hsplit as <- <- <- _. congruence.
        + injection Hsplit as _ <- <- <- _. congruence.
        + by injection Hsplit as _ _ <- <- <- _.
        + injection Hsplit as _ _ _ Hnil. by destruct before. }
  split.
  - destruct (resolve env rc "SENTRY_URL" "defaults" "url") as [url_value|]; [|done].
    destruct (resolve env rc "SENTRY_AUTH_TOKEN" "auth" "token"); [|done].
    destruct (resolve env rc "SENTRY_ORG_SLUG" "defaults" "org"); [|done].
    destruct (url_check (ini_to_string url_value)); [|done].
    by destruct url_value.
  - intros ([|? [|? [|? before]]] & section & key & after & Hsplit & Hunset & Hbefore).
    + injection Hsplit as <- <- <- _. congruence.
    + injection Hsplit as _ <- <- <- _. congruence.
    + injection Hsplit as _ _ <- <- <- _. congruence.
    + injection Hsplit as _ _ _ Hnil. by destruct before.
Qed.

(** X23: When start-up succeeds, the resolved URL is a non-empty string that
    passed the URL check, the client's base URL is that URL without one
    trailing slash followed by [/api/0/], its authorization header is the
    bearer token, its timeout 20 seconds, and the token and the organization
    are set. *)
Theorem startup_success env rc config :
  startup env rc = inr config ->
  exists SENTRY_URL token org,
    resolve env rc "SENTRY_URL" "defaults" "url" = Some (IString SENTRY_URL) /\
    SENTRY_URL <> EmptyString /\
    url_check SENTRY_URL = true /\
    resolve env rc "SENTRY_AUTH_TOKEN" "auth" "token" = Some token /\
    is_set (Some token) = true /\
    resolve env rc "SENTRY_ORG_SLUG" "defaults" "org" = Some org /\
    is_set (Some org) = true /\
    config = {| baseURL := SENTRY_BASE_URL SENTRY_URL ++ "/api/0/";
                Authorization := "Bearer " ++ ini_to_string token;
                timeout := 20000;
                org_slug := ini_to_string org |}.
Proof.
  unfold startup. fold (resolve env rc "SENTRY_URL" "defaults" "url").
  fold (resolve env rc "SENTRY_AUTH_TOKEN" "auth" "token").
  fold (resolve env rc "SENTRY_ORG_SLUG" "defaults" "org").
  destruct (resolve env rc "SENTRY_URL" "defaults" "url") as [url_value|] eqn:Hurl;
    [|done].
  destruct (is_set (Some url_value)) eqn:Hset; [|done]. cbn [negb].
  destruct (resolve env rc "SENTRY_AUTH_TOKEN" "auth" "token") as [token|]; [|done].
  destruct (is_set (Some token)) eqn:Htoken; [|done]. cbn [negb].
  destruct (resolve env rc "SENTRY_ORG_SLUG" "defaults" "org") as [org|]; [|done].
  destruct (is_set (Some org)) eqn:Horg; [|done]. cbn [negb].
  destruct (url_check (ini_to_string url_value)) eqn:Hcheck; [|done]. cbn [negb].
  destruct url_value as [SENTRY_URL| |]; try done. intros [= <-].
  exists SENTRY_URL, token, org. repeat (split; [done|]).
  split; [|done]. intros ->. discriminate.
Qed.

End StartupProperties.


Lemma startup_success_witness :
  exists SENTRY_URL token org,
    resolve ∅ StartupExamples.rc "SENTRY_URL" "defaults" "url" = Some (IString SENTRY_URL) /\
    SENTRY_URL <> EmptyString /\
    url_check (H := WhatwgURL) SENTRY_URL = true /\
    resolve ∅ StartupExamples.rc "SENTRY_AUTH_TOKEN" "auth" "token" = Some token /\
    is_set (Some token) = true /\
    resolve ∅ StartupExamples.rc "SENTRY_ORG_SLUG" "defaults" "org" = Some org /\
    is_set (Some org) = true /\
    {| baseURL := "https://sentry.example.com/api/0/";
       Authorization := "Bearer secret";
       timeout := 20000;
       org_slug := "acme" |}
    = {| baseURL := SENTRY_BASE_URL SENTRY_URL ++ "/api/0/";
         Authorization := "Bearer " ++ ini_to_string token;
         timeout := 20000;
         org_slug := ini_to_string org |}.
Proof.
  apply (startup_success (H := WhatwgURL) ∅ StartupExamples.rc).
  vm_compute. reflexivity.
Defined.
